(** * tor-daily-report: a shallow embedding of [tor-daily-report.py]

    The script queries a Tor relay over its control port, assembles a
    report dictionary, renders it as plain text and mails it.  This file
    embeds the script's functions and proves the properties its
    specification states about them.

    Layout:
    - [Py]: the Python primitives the script relies on (exceptions,
      [str] methods, [int] parsing, [repr], binary64 numbers, [datetime],
      dynamically typed values);
    - [Stem]: the narrow query surface of the control-port library;
    - the script itself: [format_bytes], [format_duration],
      [get_relay_report], [format_report_text], the subject line of [main];
    - the statements of the specification, then their proofs. *)

From stdpp Require Import gmap strings list fin_maps pretty.
From Stdlib Require Import ZArith Lia Ascii.

Local Open Scope Z_scope.

(* ===================================================================== *)
(** * Python primitives *)
(* ===================================================================== *)

Module Py.

(** ** Exceptions

    A computation either returns a value or raises.  The script only ever
    formats a caught exception with [str(e)], so an exception is modelled
    by that message.  All exceptions here are subclasses of [Exception],
    the ones [except Exception] and the bare [except] of the script
    catch. *)

Inductive outcome (A : Type) : Type :=
| Ret (a : A)
| Raise (msg : string).
Arguments Ret {A} a.
Arguments Raise {A} msg.

Definition obind {A B} (x : outcome A) (f : A -> outcome B) : outcome B :=
  match x with
  | Ret a => f a
  | Raise e => Raise e
  end.

#[global] Instance outcome_ret : MRet outcome := fun A a => Ret a.
#[global] Instance outcome_bind : MBind outcome := fun A B f x => obind x f.

(** ** Strings *)

(** Characters that cannot be written inside a literal here. *)
Definition dquote : ascii := ascii_of_nat 34.
Definition squote : ascii := ascii_of_nat 39.
Definition backslash : ascii := ascii_of_nat 92.
Definition newline : ascii := ascii_of_nat 10.

Definition str1 (c : ascii) : string := String c EmptyString.

(** [sep.join(parts)] *)
Definition join (sep : string) (parts : list string) : string :=
  String.concat sep parts.

(** [needle in hay] for two [str]. *)
Fixpoint contains (needle hay : string) : bool :=
  String.prefix needle hay ||
  match hay with
  | EmptyString => false
  | String _ hay' => contains needle hay'
  end.

(** [c * n] for a one-character string [c]. *)
Fixpoint repeat_char (c : ascii) (n : nat) : string :=
  match n with
  | O => EmptyString
  | S n' => String c (repeat_char c n')
  end.

(** [str(n)] for an [int]. *)
Definition str_int (n : Z) : string := pretty n.

(** The characters of a string, as iterating over a [str] yields them. *)
Fixpoint chars (s : string) : list string :=
  match s with
  | EmptyString => []
  | String c s' => str1 c :: chars s'
  end.

(** [s.split(sep)] with a one-character separator: the pieces between
    the separators, empty pieces included, always at least one piece. *)
Fixpoint split_on (sep : ascii) (s : string) : list string :=
  match s with
  | EmptyString => [EmptyString]
  | String c s' =>
      if Ascii.eqb c sep then EmptyString :: split_on sep s'
      else match split_on sep s' with
           | [] => [str1 c]
           | p :: ps => String c p :: ps
           end
  end.

(** Whitespace in the ASCII range, as [str.strip()] and [int()] skip it. *)
Definition is_space (c : ascii) : bool :=
  let n := nat_of_ascii c in
  ((9 <=? n) && (n <=? 13) || (n =? 32) || ((28 <=? n) && (n <=? 31)))%nat.

Fixpoint lstrip (s : string) : string :=
  match s with
  | String c s' => if is_space c then lstrip s' else s
  | EmptyString => EmptyString
  end.

Fixpoint rstrip (s : string) : string :=
  match s with
  | EmptyString => EmptyString
  | String c s' =>
      match rstrip s' with
      | EmptyString => if is_space c then EmptyString else str1 c
      | r => String c r
      end
  end.

(** [s.strip()] *)
Definition strip (s : string) : string := rstrip (lstrip s).

(** ** [repr] of a [str]

    CPython uses the single quote unless the string holds a single quote
    and no double quote;
    it escapes the backslash, the chosen quote, tab, newline and carriage
    return, and writes the other control characters as [\xhh].  Bytes
    above 127 belong to UTF-8 sequences of non-ASCII characters and are
    kept: CPython keeps every printable character, and escapes the
    others with a backslash sequence of lower-case letters and digits. *)

Fixpoint has_char (c : ascii) (s : string) : bool :=
  match s with
  | EmptyString => false
  | String x s' => Ascii.eqb x c || has_char c s'
  end.

Definition hex_digit (n : nat) : ascii :=
  if (n <? 10)%nat then ascii_of_nat (48 + n) else ascii_of_nat (87 + n).

Definition repr_char (quote c : ascii) : string :=
  let n := nat_of_ascii c in
  if Ascii.eqb c backslash then String backslash (str1 backslash)
  else if Ascii.eqb c quote then String backslash (str1 quote)
  else if (n =? 9)%nat then String backslash "t"
  else if (n =? 10)%nat then String backslash "n"
  else if (n =? 13)%nat then String backslash "r"
  else if (n <? 32)%nat || (n =? 127)%nat then
    String backslash
      (String "x" (String (hex_digit (n / 16)) (str1 (hex_digit (n mod 16)))))
  else str1 c.

Fixpoint repr_body (quote : ascii) (s : string) : string :=
  match s with
  | EmptyString => EmptyString
  | String c s' => repr_char quote c +:+ repr_body quote s'
  end.

Definition repr_quote (s : string) : ascii :=
  if has_char squote s && negb (has_char dquote s) then dquote else squote.

Definition repr_str (s : string) : string :=
  let q := repr_quote s in
  String q (repr_body q s +:+ str1 q).

(** [repr] of a list of [str], which is also its [str]. *)
Definition repr_list (l : list string) : string :=
  "[" +:+ join ", " (map repr_str l) +:+ "]".

(** ** [int(s)] for a [str]

    Surrounding whitespace is skipped, one sign is allowed, and the
    digits may be grouped by single underscores.  Anything else raises
    [ValueError]. *)

Definition digit_value (c : ascii) : option Z :=
  let n := nat_of_ascii c in
  if (48 <=? n)%nat && (n <=? 57)%nat then Some (Z.of_nat n - 48) else None.

(** [parse_digits acc after_digit s]: [after_digit] tells whether the
    previous character was a digit, so that an underscore may follow. *)
Fixpoint parse_digits (acc : Z) (after_digit : bool) (s : string) : option Z :=
  match s with
  | EmptyString => if after_digit then Some acc else None
  | String c s' =>
      match digit_value c with
      | Some d => parse_digits (10 * acc + d) true s'
      | None =>
          if Ascii.eqb c "_" && after_digit then parse_digits acc false s'
          else None
      end
  end.

Definition parse_int (s : string) : option Z :=
  match strip s with
  | String "-" s' => Z.opp <$> parse_digits 0 false s'
  | String "+" s' => parse_digits 0 false s'
  | s' => parse_digits 0 false s'
  end.

Definition py_int (s : string) : outcome Z :=
  match parse_int s with
  | Some n => Ret n
  | None => Raise ("invalid literal for int() with base 10: " +:+ repr_str s)
  end.

(** ** Floating-point numbers

    A finite binary64 number is a sign, a mantissa and an exponent:
    its value is [(-1)^fneg * fmant * 2^fexp], with [0 <= fmant < 2^53]
    and [-1074 <= fexp].  The script never produces an infinity or a NaN:
    converting or dividing integers raises [OverflowError] instead.
    Comparisons, the division by 1024.0 and the decimal rendering are
    computed on the exact value, as IEEE 754 and CPython's correctly
    rounded conversions define them. *)

Record float : Type := Float { fneg : bool; fmant : Z; fexp : Z }.

(** Round the quotient [q] with remainder [r] of a division by [den] to
    the nearest integer, ties to even. *)
Definition half_even (q r den : Z) : Z :=
  if (den <? 2 * r) || ((2 * r =? den) && Z.odd q) then q + 1 else q.

(** The binary64 number nearest to [m * 2^e], ties to even, for [0 <= m]:
    53 bits of mantissa, and no exponent below that of the subnormals. *)
Definition round_dyadic (neg : bool) (m e : Z) : float :=
  if m =? 0 then Float neg 0 0
  else
    let bits := Z.log2 m + 1 in
    let e' := Z.max (e + bits - 53) (-1074) in
    if e' <=? e then Float neg m e
    else
      let den := 2 ^ (e' - e) in
      let q := half_even (m / den) (m mod den) den in
      if q =? 2 ^ 53 then Float neg (2 ^ 52) (e' + 1) else Float neg q e'.

(** Magnitude [2^1024] or more: not a finite binary64 number. *)
Definition float_overflow (x : float) : bool :=
  (0 <? fexp x) && (2 ^ 1024 <=? fmant x * 2 ^ fexp x).

(** [float(n)] for an [int], also the implicit conversion of an [int]
    operand in mixed arithmetic and in the [f] format. *)
Definition float_of_int (n : Z) : outcome float :=
  let x := round_dyadic (n <? 0) (Z.abs n) 0 in
  if float_overflow x then Raise "int too large to convert to float"
  else Ret x.

(** [a / b] for two [int]: the correctly rounded quotient. *)
Definition int_truediv (a b : Z) : outcome float :=
  if b =? 0 then Raise "division by zero"
  else
    let neg := xorb (a <? 0) (b <? 0) in
    let A := Z.abs a in
    let B := Z.abs b in
    if A =? 0 then Ret (Float neg 0 0)
    else
      let k := Z.log2 A - Z.log2 B in
      let fl := if (if 0 <=? k then B * 2 ^ k <=? A else B <=? A * 2 ^ (- k))
                then k else k - 1 in
      let e' := Z.max (fl - 52) (-1074) in
      let num := if 0 <=? e' then A else A * 2 ^ (- e') in
      let den := if 0 <=? e' then B * 2 ^ e' else B in
      let q := half_even (num / den) (num mod den) den in
      let x := if q =? 2 ^ 53 then Float neg (2 ^ 52) (e' + 1)
               else Float neg q e' in
      if float_overflow x
      then Raise "integer division result too large for a float"
      else Ret x.

(** [abs(x) < 1024.0] *)
Definition float_abs_lt_1024 (x : float) : bool :=
  if 0 <=? fexp x then fmant x * 2 ^ fexp x <? 1024
  else fmant x <? 1024 * 2 ^ (- fexp x).

(** [x / 1024.0] *)
Definition float_div_1024 (x : float) : float :=
  round_dyadic (fneg x) (fmant x) (fexp x - 10).

Definition digit_char (d : Z) : ascii := ascii_of_nat (48 + Z.to_nat d).

(** [f"{x:.2f}"]: the exact value rounded to two decimals, ties to even;
    the sign is kept when the rounded value is zero. *)
Definition format_2f (x : float) : string :=
  let num :=
    if 0 <=? fexp x then 100 * fmant x * 2 ^ fexp x else 100 * fmant x in
  let den := if 0 <=? fexp x then 1 else 2 ^ (- fexp x) in
  let n := half_even (num / den) (num mod den) den in
  (if fneg x then "-" else EmptyString) +:+
  str_int (n / 100) +:+ "." +:+
  String (digit_char ((n mod 100) / 10)) (str1 (digit_char (n mod 10))).

(** A number as the script handles it: an [int] or a [float]. *)
Inductive num : Type :=
| NInt (n : Z)
| NFloat (x : float).

(** [abs(v) < 1024.0]; an [int] is compared exactly. *)
Definition num_abs_lt_1024 (v : num) : bool :=
  match v with
  | NInt n => Z.abs n <? 1024
  | NFloat x => float_abs_lt_1024 x
  end.

(** [v / 1024.0] *)
Definition num_div_1024 (v : num) : outcome float :=
  match v with
  | NInt n => x ← float_of_int n; Ret (float_div_1024 x)
  | NFloat x => Ret (float_div_1024 x)
  end.

(** [f"{v:.2f}"] *)
Definition num_format_2f (v : num) : outcome string :=
  match v with
  | NInt n => x ← float_of_int n; Ret (format_2f x)
  | NFloat x => Ret (format_2f x)
  end.

(** ** [datetime] and [timedelta]

    A naive [datetime] of the proleptic Gregorian calendar, with the
    ordinal arithmetic of CPython's [datetime] module. *)

Record datetime : Type := Datetime {
  year : Z; month : Z; day : Z;
  hour : Z; minute : Z; second : Z; microsecond : Z
}.

Definition is_leap (y : Z) : bool :=
  (y mod 4 =? 0) && (negb (y mod 100 =? 0) || (y mod 400 =? 0)).

Definition days_before_year (y : Z) : Z :=
  let y1 := y - 1 in y1 * 365 + y1 / 4 - y1 / 100 + y1 / 400.

Definition days_in_month_table : list Z :=
  [-1; 31; 28; 31; 30; 31; 30; 31; 31; 30; 31; 30; 31].

Definition days_before_month_table : list Z :=
  [-1; 0; 31; 59; 90; 120; 151; 181; 212; 243; 273; 304; 334].

Definition bool_to_Z (b : bool) : Z := if b then 1 else 0.

Definition days_before_month (y m : Z) : Z :=
  nth (Z.to_nat m) days_before_month_table 0
  + bool_to_Z ((2 <? m) && is_leap y).

(** [_ymd2ord]: 0001-01-01 is day 1. *)
Definition ymd2ord (y m d : Z) : Z :=
  days_before_year y + days_before_month y m + d.

(** [_ord2ymd] *)
Definition ord2ymd (ordinal : Z) : Z * Z * Z :=
  let n := ordinal - 1 in
  let '(n400, n) := Z.div_eucl n 146097 in
  let y := n400 * 400 + 1 in
  let '(n100, n) := Z.div_eucl n 36524 in
  let '(n4, n) := Z.div_eucl n 1461 in
  let '(n1, n) := Z.div_eucl n 365 in
  let y := y + n100 * 100 + n4 * 4 + n1 in
  if (n1 =? 4) || (n100 =? 4) then (y - 1, 12, 31)
  else
    let leapyear := (n1 =? 3) && (negb (n4 =? 24) || (n100 =? 3)) in
    let m := Z.shiftr (n + 50) 5 in
    let preceding :=
      nth (Z.to_nat m) days_before_month_table 0
      + bool_to_Z ((2 <? m) && leapyear) in
    if n <? preceding then
      let m := m - 1 in
      let preceding :=
        preceding - (nth (Z.to_nat m) days_in_month_table 0
                     + bool_to_Z ((m =? 2) && leapyear)) in
      (y, m, n - preceding + 1)
    else (y, m, n - preceding + 1).

(** The largest ordinal: 9999-12-31. *)
Definition max_ordinal : Z := 3652059.

(** [dt - timedelta(seconds=secs)] for an [int] number of seconds.
    Building the [timedelta] raises when its days do not fit a C [int] or
    exceed 999999999 in magnitude; the subtraction raises when the date
    leaves the years 1..9999. *)
Definition sub_seconds (dt : datetime) (secs : Z) : outcome datetime :=
  let td_days := secs / 86400 in
  if (2147483647 <? td_days) || (td_days <? -2147483648) then
    Raise "Python int too large to convert to C int"
  else if 999999999 <? Z.abs td_days then
    Raise ("days=" +:+ str_int td_days +:+ "; must have magnitude <= 999999999")
  else
    let total :=
      ymd2ord (year dt) (month dt) (day dt) * 86400
      + hour dt * 3600 + minute dt * 60 + second dt - secs in
    let ordinal := total / 86400 in
    let rest := total mod 86400 in
    if (0 <? ordinal) && (ordinal <=? max_ordinal) then
      let '(y, m, d) := ord2ymd ordinal in
      Ret (Datetime y m d (rest / 3600) ((rest mod 3600) / 60) (rest mod 60)
             (microsecond dt))
    else Raise "date value out of range".

(** Zero-padded decimal fields. *)
Definition pad2 (n : Z) : string :=
  if n <? 10 then "0" +:+ str_int n else str_int n.

Definition pad4 (n : Z) : string :=
  if n <? 10 then "000" +:+ str_int n
  else if n <? 100 then "00" +:+ str_int n
  else if n <? 1000 then "0" +:+ str_int n
  else str_int n.

Definition pad6 (n : Z) : string :=
  if n <? 10 then "00000" +:+ str_int n
  else if n <? 100 then "0000" +:+ str_int n
  else if n <? 1000 then "000" +:+ str_int n
  else if n <? 10000 then "00" +:+ str_int n
  else if n <? 100000 then "0" +:+ str_int n
  else str_int n.

(** [dt.strftime(fmt)] for the directives the script uses; any other
    character, a directive the script does not use included, is copied.
    The C library renders the fields: glibc writes the year of [%Y]
    without padding and the other fields on two digits. *)
Fixpoint strftime (dt : datetime) (fmt : string) : string :=
  match fmt with
  | String "%" (String "Y" fmt') => str_int (year dt) +:+ strftime dt fmt'
  | String "%" (String "m" fmt') => pad2 (month dt) +:+ strftime dt fmt'
  | String "%" (String "d" fmt') => pad2 (day dt) +:+ strftime dt fmt'
  | String "%" (String "H" fmt') => pad2 (hour dt) +:+ strftime dt fmt'
  | String "%" (String "M" fmt') => pad2 (minute dt) +:+ strftime dt fmt'
  | String "%" (String "S" fmt') => pad2 (second dt) +:+ strftime dt fmt'
  | String c fmt' => String c (strftime dt fmt')
  | EmptyString => EmptyString
  end.

(** [str(dt)]: the ISO format with a space, the year on four digits. *)
Definition str_datetime (dt : datetime) : string :=
  pad4 (year dt) +:+ strftime dt "-%m-%d %H:%M:%S" +:+
  (if microsecond dt =? 0 then EmptyString else "." +:+ pad6 (microsecond dt)).

(** ** Dynamically typed values

    The values the report dictionary holds: strings, integers, booleans,
    [None], lists of strings, datetimes, and the accounting sub-record (a
    dictionary from strings to strings, in insertion order). *)

Inductive value : Type :=
| VStr (s : string)
| VInt (n : Z)
| VBool (b : bool)
| VNone
| VList (l : list string)
| VDatetime (dt : datetime)
| VDict (kvs : list (string * string)).

Definition type_name (v : value) : string :=
  match v with
  | VStr _ => "str"
  | VInt _ => "int"
  | VBool _ => "bool"
  | VNone => "NoneType"
  | VList _ => "list"
  | VDatetime _ => "datetime.datetime"
  | VDict _ => "dict"
  end.

(** [str(v)], which is also what an f-string field [{v}] inserts. *)
Definition py_str (v : value) : string :=
  match v with
  | VStr s => s
  | VInt n => str_int n
  | VBool b => if b then "True" else "False"
  | VNone => "None"
  | VList l => repr_list l
  | VDatetime dt => str_datetime dt
  | VDict kvs =>
      "{" +:+ join ", " (map (fun kv => repr_str kv.1 +:+ ": " +:+ repr_str kv.2) kvs)
      +:+ "}"
  end.

(** Truth value of [v] in a condition. *)
Definition truthy (v : value) : bool :=
  match v with
  | VStr s => negb (bool_decide (s = EmptyString))
  | VInt n => negb (n =? 0)
  | VBool b => b
  | VNone => false
  | VList l => negb (bool_decide (l = []))
  | VDatetime _ => true
  | VDict kvs => negb (bool_decide (kvs = []))
  end.

(** The strings that iterating over [v] yields, for the values whose
    items are strings. *)
Definition iter_strs (v : value) : outcome (list string) :=
  match v with
  | VList l => Ret l
  | VStr s => Ret (chars s)
  | VDict kvs => Ret (map fst kvs)
  | _ => Raise (String squote (type_name v +:+ str1 squote
                                +:+ " object is not iterable"))
  end.

(** The integer a value stands for in arithmetic: [bool] is an [int]. *)
Definition as_int (v : value) : option Z :=
  match v with
  | VInt n => Some n
  | VBool b => Some (bool_to_Z b)
  | _ => None
  end.

(** [d[key]] and [d.get(key, default)] on a dictionary. *)
Definition getitem (d : gmap string value) (key : string) : outcome value :=
  match d !! key with
  | Some v => Ret v
  | None => Raise (repr_str key)
  end.

Definition get_or (d : gmap string value) (key : string) (dflt : value) : value :=
  match d !! key with
  | Some v => v
  | None => dflt
  end.

End Py.

Import Py.

(* ===================================================================== *)
(** * The control-port library and the environment *)
(* ===================================================================== *)

Module Stem.

(** The router status entry [get_network_status] returns: the fields the
    script reads. *)
Record NetworkStatus : Type := {
  ns_flags : option (list string);
  ns_bandwidth : option Z;
  ns_published : option datetime
}.

(** An open control session.  Every query either answers or raises; the
    script issues each query once, so an answer per query describes a
    session. *)
Record Controller : Type := {
  authenticate : option string -> outcome unit;
  get_version : outcome string;
  get_info : string -> outcome string;
  get_conf : string -> outcome string;
  get_network_status : string -> outcome NetworkStatus
}.

(** [controller.get_info(key, default)] and
    [controller.get_conf(key, default)]: with a default, the library
    answers the default when the query fails. *)
Definition get_info_default (c : Controller) (key default : string) : string :=
  match get_info c key with
  | Ret v => v
  | Raise _ => default
  end.

Definition get_conf_default (c : Controller) (key default : string) : string :=
  match get_conf c key with
  | Ret v => v
  | Raise _ => default
  end.

End Stem.

Import Stem.

(** What one run of the script sees of the outside: the clock, the host
    name, the control port, and the order in which this process iterates
    over a set of strings (it depends on the process's hash seed). *)
Record World : Type := {
  now : datetime;
  gethostname : string;
  from_port : string -> Z -> outcome Controller;
  set_order : gset string -> list string
}.

(** Iterating over a set yields each of its elements once. *)
Definition set_order_ok (w : World) : Prop :=
  forall X : gset string, set_order w X ≡ₚ elements X.

(** The configuration constants of the script (lines 34-53) that the
    modelled functions read. *)
Record Config : Type := {
  TOR_CONTROL_HOST : string;
  TOR_CONTROL_PORT : Z;
  TOR_CONTROL_PASSWORD : option string;
  RELAY_NICKNAME : string;
  MIN_CONNECTIONS_WARN : Z;
  MIN_CONNECTIONS_CRIT : Z
}.

Definition script_config : Config := {|
  TOR_CONTROL_HOST := "127.0.0.1";
  TOR_CONTROL_PORT := 9051;
  TOR_CONTROL_PASSWORD := None;
  RELAY_NICKNAME := "OnionPie";
  MIN_CONNECTIONS_WARN := 100;
  MIN_CONNECTIONS_CRIT := 50
|}.

(* ===================================================================== *)
(** * The script: formatting helpers *)
(* ===================================================================== *)

(** The loop of [format_bytes] over the units that remain. *)
Fixpoint format_bytes_loop (units : list string) (num_bytes : num)
  : outcome string :=
  match units with
  | unit :: units' =>
      if num_abs_lt_1024 num_bytes then
        s ← num_format_2f num_bytes; Ret (s +:+ " " +:+ unit)
      else
        x ← num_div_1024 num_bytes; format_bytes_loop units' (NFloat x)
  | [] => s ← num_format_2f num_bytes; Ret (s +:+ " PB")
  end.

(** [format_bytes] (lines 59-65). *)
Definition format_bytes (num_bytes : num) : outcome string :=
  format_bytes_loop ["B"; "KB"; "MB"; "GB"; "TB"] num_bytes.

(** [divmod(a, b)] on [int]: floor division and the remainder with the
    sign of the divisor, which is what [Z.div_eucl] computes. *)
Definition divmod (a b : Z) : Z * Z := Z.div_eucl a b.

(** The list [parts] that [format_duration] joins (lines 70-82).  The
    argument is the [int] that [int(seconds)] yields. *)
Definition duration_parts (seconds : Z) : list string :=
  let '(days, remainder) := divmod seconds 86400 in
  let '(hours, remainder) := divmod remainder 3600 in
  let '(minutes, secs) := divmod remainder 60 in
  let parts := [] in
  let parts := if 0 <? days then parts ++ [str_int days +:+ "d"] else parts in
  let parts := if 0 <? hours then parts ++ [str_int hours +:+ "h"] else parts in
  let parts := if 0 <? minutes then parts ++ [str_int minutes +:+ "m"] else parts in
  let parts :=
    if (0 <? secs) || bool_decide (parts = [])
    then parts ++ [str_int secs +:+ "s"] else parts in
  parts.

(** [format_duration] (lines 68-84). *)
Definition format_duration (seconds : Z) : string :=
  join " " (duration_parts seconds).

(* ===================================================================== *)
(** * The script: the collector *)
(* ===================================================================== *)

(** The report is one dictionary, mutated in place while it is filled.
    A step of the collector reads and updates it and may raise; what was
    written before the exception stays written. *)
Definition M (A : Type) : Type := gmap string value -> outcome A * gmap string value.

#[global] Instance M_ret : MRet M := fun A a report => (Ret a, report).
#[global] Instance M_bind : MBind M := fun A B f c report =>
  match c report with
  | (Ret a, report') => f a report'
  | (Raise e, report') => (Raise e, report')
  end.

(** A call that does not touch the report. *)
Definition call {A} (x : outcome A) : M A := fun report => (x, report).

(** [report[key] = v] *)
Definition setitem (key : string) (v : value) : M unit :=
  fun report => (Ret (), <[key := v]> report).

(** [report[key]] *)
Definition item (key : string) : M value :=
  fun report => (getitem report key, report).

(** [report.get(key)] *)
Definition get (key : string) : M value :=
  fun report => (Ret (get_or report key VNone), report).

(** [report[key]] where the script goes on to use it as an [int]. *)
Definition item_int (key : string) : M Z :=
  v ← item key;
  match v with
  | VInt n => mret n
  | _ => call (Raise ("an int is required, not " +:+ type_name v))
  end.

(** [report[key].append(s)] *)
Definition append_item (key : string) (s : string) : M unit :=
  v ← item key;
  match v with
  | VList l => setitem key (VList (l ++ [s]))
  | _ => call (Raise (String squote (type_name v +:+ str1 squote
                        +:+ " object has no attribute 'append'")))
  end.

(** [try: body  except Exception as e: handler(e)] *)
Definition try_except {A} (body : M A) (handler : string -> M A) : M A :=
  fun report =>
    match body report with
    | (Ret a, report') => (Ret a, report')
    | (Raise e, report') => handler e report'
    end.

(** Lines 104-107: version and uptime. *)
Definition collect_basic_info (controller : Controller) : M unit :=
  version ← call (get_version controller);
  setitem "version" (VStr version);;
  uptime ← call (get_info controller "uptime");
  uptime ← call (py_int uptime);
  setitem "uptime_seconds" (VInt uptime);;
  uptime_seconds ← item_int "uptime_seconds";
  setitem "uptime_human" (VStr (format_duration uptime_seconds)).

(** Lines 109-113: traffic counters. *)
Definition collect_traffic (controller : Controller) : M unit :=
  read ← call (get_info controller "traffic/read");
  read ← call (py_int read);
  setitem "bytes_read" (VInt read);;
  written ← call (get_info controller "traffic/written");
  written ← call (py_int written);
  setitem "bytes_written" (VInt written);;
  bytes_read ← item_int "bytes_read";
  human ← call (format_bytes (NInt bytes_read));
  setitem "traffic_read_human" (VStr human);;
  bytes_written ← item_int "bytes_written";
  human ← call (format_bytes (NInt bytes_written));
  setitem "traffic_written_human" (VStr human).

(** Lines 115-119: relay identity. *)
Definition collect_identity (cfg : Config) (controller : Controller) : M unit :=
  fingerprint ← call (get_info controller "fingerprint");
  setitem "fingerprint" (VStr fingerprint);;
  setitem "nickname"
    (VStr (get_conf_default controller "Nickname" (RELAY_NICKNAME cfg)));;
  setitem "address" (VStr (get_info_default controller "address" "unknown"));;
  setitem "or_port" (VStr (get_conf_default controller "ORPort" "9001")).

(** Lines 121-127: circuit status and the count of OR connections. *)
Definition collect_connections (controller : Controller) : M unit :=
  established ← call (get_info controller "status/circuit-established");
  setitem "circuits_established" (VBool (bool_decide (established = "1")));;
  let orconn_status := get_info_default controller "orconn-status" EmptyString in
  let connections :=
    filter (fun line => line <> EmptyString)
      (split_on newline (strip orconn_status)) in
  setitem "connection_count" (VInt (Z.of_nat (length connections))).

Definition critical_message (count threshold : Z) : string :=
  "⚠️  CRITICAL: Only " +:+ str_int count +:+ " connections "
  +:+ "(threshold: " +:+ str_int threshold +:+ ")".

Definition warning_message (count threshold : Z) : string :=
  "⚠️  WARNING: Only " +:+ str_int count +:+ " connections "
  +:+ "(threshold: " +:+ str_int threshold +:+ ")".

(** Lines 129-139: the connection thresholds. *)
Definition check_connection_thresholds (cfg : Config) : M unit :=
  count ← item_int "connection_count";
  if count <? MIN_CONNECTIONS_CRIT cfg then
    count ← item_int "connection_count";
    append_item "warnings" (critical_message count (MIN_CONNECTIONS_CRIT cfg))
  else
    count ← item_int "connection_count";
    if count <? MIN_CONNECTIONS_WARN cfg then
      count ← item_int "connection_count";
      append_item "warnings" (warning_message count (MIN_CONNECTIONS_WARN cfg))
    else mret ().

Definition option_value {A} (f : A -> value) (x : option A) : value :=
  match x with
  | Some a => f a
  | None => VNone
  end.

(** Lines 141-149: the relay's entry in the consensus. *)
Definition collect_network_status (controller : Controller) : M unit :=
  try_except
    (fingerprint ← item "fingerprint";
     ns ← call (get_network_status controller (py_str fingerprint));
     setitem "flags"
       (VList (match ns_flags ns with
               | Some (flag :: flags) => flag :: flags
               | _ => []
               end));;
     setitem "bandwidth" (option_value VInt (ns_bandwidth ns));;
     setitem "published" (option_value VDatetime (ns_published ns)))
    (fun e =>
       setitem "flags" (VList ["(unable to retrieve)"]);;
       append_item "errors" ("Could not get network status: " +:+ e)).

Definition expected_flags : gset string := {["Running"; "Valid"]}.

Definition missing_flags_message (missing : list string) : string :=
  "⚠️  Missing expected flags: " +:+ join ", " missing.

(** Lines 151-159: the expected flags. *)
Definition check_expected_flags (w : World) : M unit :=
  flags ← get "flags";
  if truthy flags then
    flags ← item "flags";
    match flags with
    | VList flags =>
        let current_flags : gset string := list_to_set flags in
        let missing := expected_flags ∖ current_flags in
        if bool_decide (missing = ∅) then mret ()
        else append_item "warnings" (missing_flags_message (set_order w missing))
    | _ => mret ()
    end
  else mret ().

(** Lines 161-170: accounting, when it is enabled. *)
Definition collect_accounting (controller : Controller) : M unit :=
  try_except
    (let accounting_enabled :=
       get_info_default controller "accounting/enabled" "0" in
     if bool_decide (accounting_enabled = "1") then
       bytes_left ← call (get_info controller "accounting/bytes-left");
       interval_end ← call (get_info controller "accounting/interval-end");
       setitem "accounting"
         (VDict [("bytes_left", bytes_left); ("interval_end", interval_end)])
     else mret ())
    (fun _ => mret ()).

(** Lines 97-170: the body of the outer [try]. *)
Definition collect (cfg : Config) (w : World) : M unit :=
  controller ← call (from_port w (TOR_CONTROL_HOST cfg) (TOR_CONTROL_PORT cfg));
  call (match TOR_CONTROL_PASSWORD cfg with
        | Some (String c password) =>
            authenticate controller (Some (String c password))
        | _ => authenticate controller None
        end);;
  collect_basic_info controller;;
  collect_traffic controller;;
  collect_identity cfg controller;;
  collect_connections controller;;
  check_connection_thresholds cfg;;
  collect_network_status controller;;
  check_expected_flags w;;
  collect_accounting controller.

Definition initial_report (w : World) : gmap string value :=
  <["errors" := VList []]>
    (<["warnings" := VList []]>
       (<["hostname" := VStr (gethostname w)]>
          (<["generated" := VDatetime (now w)]> ∅))).

Definition connect_failure (e : string) : string :=
  "Failed to connect to Tor control port: " +:+ e.

(** [get_relay_report] (lines 87-175): the report it returns, or the
    exception that leaves it. *)
Definition get_relay_report (cfg : Config) (w : World)
  : outcome (gmap string value) :=
  let '(result, report) :=
    try_except (collect cfg w)
      (fun e => append_item "errors" (connect_failure e))
      (initial_report w) in
  match result with
  | Ret _ => Ret report
  | Raise e => Raise e
  end.

(* ===================================================================== *)
(** * The script: the formatter and the subject line *)
(* ===================================================================== *)

Definition rule (c : ascii) (n : nat) : string := repeat_char c n.

(** Lines 182-188: the header. *)
Definition header_lines (report : gmap string value) : outcome (list string) :=
  generated ← getitem report "generated";
  match generated with
  | VDatetime dt =>
      Ret [rule "=" 60;
           "  TOR RELAY REPORT: " +:+ py_str (get_or report "nickname" (VStr "Unknown"));
           "  Generated: " +:+ strftime dt "%Y-%m-%d %H:%M:%S";
           "  Host: " +:+ py_str (get_or report "hostname" (VStr "unknown"));
           rule "=" 60;
           EmptyString]
  | v => Raise (String squote (type_name v +:+ str1 squote
                  +:+ " object has no attribute 'strftime'"))
  end.

(** Lines 190-196: the alerts. *)
Definition alert_lines (report : gmap string value) : outcome (list string) :=
  if truthy (get_or report "warnings" VNone) then
    warnings ← getitem report "warnings";
    warnings ← iter_strs warnings;
    Ret (["ALERTS"; rule "-" 40] ++ warnings ++ [EmptyString])
  else Ret [].

Definition error_line (error : string) : string := "❌ " +:+ error.

(** Lines 198-204: the errors. *)
Definition error_lines (report : gmap string value) : outcome (list string) :=
  if truthy (get_or report "errors" VNone) then
    errors ← getitem report "errors";
    errors ← iter_strs errors;
    Ret (["ERRORS"; rule "-" 40] ++ map error_line errors ++ [EmptyString])
  else Ret [].

(** Lines 199 and 206: whether rendering stops after the errors. *)
Definition stops_after_errors (report : gmap string value) : outcome bool :=
  if truthy (get_or report "errors" VNone) then
    errors ← getitem report "errors";
    Ret (contains "Failed to connect" (py_str errors))
  else Ret false.

(** Lines 209-217: the status. *)
Definition status_lines (report : gmap string value) : list string :=
  let circuit_status :=
    if truthy (get_or report "circuits_established" VNone)
    then "✅ Established" else "❌ NOT Established" in
  ["STATUS"; rule "-" 40;
   "  Circuits:      " +:+ circuit_status;
   "  Connections:   " +:+ py_str (get_or report "connection_count" (VStr "N/A"));
   "  Uptime:        " +:+ py_str (get_or report "uptime_human" (VStr "N/A"));
   "  Tor Version:   " +:+ py_str (get_or report "version" (VStr "N/A"));
   EmptyString].

(** Lines 219-225: the relay identity. *)
Definition identity_lines (report : gmap string value) : list string :=
  ["RELAY IDENTITY"; rule "-" 40;
   "  Nickname:      " +:+ py_str (get_or report "nickname" (VStr "N/A"));
   "  Address:       " +:+ py_str (get_or report "address" (VStr "N/A")) +:+ ":"
     +:+ py_str (get_or report "or_port" (VStr "N/A"));
   "  Fingerprint:   " +:+ py_str (get_or report "fingerprint" (VStr "N/A"));
   EmptyString].

(** Lines 227-235: the consensus flags. *)
Definition flag_lines (report : gmap string value) : outcome (list string) :=
  let flags := get_or report "flags" (VList []) in
  line ← (if truthy flags then
            flags ← iter_strs flags; Ret ("  " +:+ join ", " flags)
          else Ret "  (none)");
  Ret ["CONSENSUS FLAGS"; rule "-" 40; line; EmptyString].

(** [uptime > 0] *)
Definition positive (uptime : value) : outcome bool :=
  match as_int uptime with
  | Some n => Ret (0 <? n)
  | None => Raise ("'>' not supported between instances of '"
                     +:+ type_name uptime +:+ "' and 'int'")
  end.

(** [report.get(key, 0) / uptime] with [uptime] an [int]. *)
Definition average (report : gmap string value) (key : string) (uptime : Z)
  : outcome float :=
  let total := get_or report key (VInt 0) in
  match as_int total with
  | Some n => int_truediv n uptime
  | None => Raise ("unsupported operand type(s) for /: '" +:+ type_name total
                     +:+ "' and 'int'")
  end.

(** Lines 237-255: the traffic. *)
Definition traffic_lines (report : gmap string value) : outcome (list string) :=
  let uptime := get_or report "uptime_seconds" (VInt 0) in
  is_up ← positive uptime;
  heading ←
    (if (is_up : bool) then
       generated ← getitem report "generated";
       match generated, as_int uptime with
       | VDatetime dt, Some secs =>
           restart_time ← sub_seconds dt secs;
           let restart_str := strftime restart_time "%m/%d/%Y %H:%M" in
           Ret ("TRAFFIC SINCE RESTART (" +:+ restart_str +:+ ")")
       | v, _ => Raise ("unsupported operand type(s) for -: '" +:+ type_name v
                          +:+ "' and 'datetime.timedelta'")
       end
     else Ret "TRAFFIC SINCE RESTART");
  let totals :=
    [rule "-" 40;
     "  Read:          " +:+ py_str (get_or report "traffic_read_human" (VStr "N/A"));
     "  Written:       " +:+ py_str (get_or report "traffic_written_human" (VStr "N/A"))] in
  is_up ← positive uptime;
  averages ←
    (if (is_up : bool) then
       match as_int uptime with
       | Some secs =>
           avg_read ← average report "bytes_read" secs;
           avg_write ← average report "bytes_written" secs;
           read ← format_bytes (NFloat avg_read);
           write ← format_bytes (NFloat avg_write);
           Ret ["  Avg Read:      " +:+ read +:+ "/s";
                "  Avg Write:     " +:+ write +:+ "/s"]
       | None => Ret []
       end
     else Ret []);
  Ret ([heading] ++ totals ++ averages ++ [EmptyString]).

(** Lines 257-261: the footer. *)
Definition footer_lines (report : gmap string value) : outcome (list string) :=
  match get_or report "fingerprint" (VStr EmptyString) with
  | VStr fingerprint =>
      Ret [rule "-" 60;
           "Relay search: https://metrics.torproject.org/rs.html#details/"
             +:+ fingerprint;
           EmptyString]
  | v => Raise ("can only concatenate str (not " +:+ str1 dquote +:+ type_name v
                  +:+ str1 dquote +:+ ") to str")
  end.

(** The list [lines] when [format_report_text] returns. *)
Definition report_lines (report : gmap string value) : outcome (list string) :=
  header ← header_lines report;
  alerts ← alert_lines report;
  errors ← error_lines report;
  stop ← stops_after_errors report;
  if (stop : bool) then Ret (header ++ alerts ++ errors)
  else
    flags ← flag_lines report;
    traffic ← traffic_lines report;
    footer ← footer_lines report;
    Ret (header ++ alerts ++ errors ++ status_lines report
           ++ identity_lines report ++ flags ++ traffic ++ footer).

(** [format_report_text] (lines 178-263). *)
Definition format_report_text (report : gmap string value) : outcome string :=
  lines ← report_lines report;
  Ret (join (str1 newline) lines).

(** Lines 301-307 of [main]: the indicator of the subject line. *)
Definition status_emoji (report : gmap string value) : string :=
  if truthy (get_or report "warnings" VNone) then "⚠️"
  else if truthy (get_or report "errors" VNone) then "❌"
  else "✅".

(** Line 309 of [main]. *)
Definition subject (cfg : Config) (report : gmap string value) : string :=
  status_emoji report +:+ " Tor Relay Report: "
  +:+ py_str (get_or report "nickname" (VStr (RELAY_NICKNAME cfg))).

(* ===================================================================== *)
(** * The script: the dispatcher *)
(* ===================================================================== *)

(** The mail settings of the script (lines 39-48). *)
Record MailConfig : Type := {
  SMTP_HOST : string;
  SMTP_PORT : Z;
  SMTP_USERNAME : string;
  SMTP_PASSWORD : string;
  SMTP_USE_TLS : bool;
  EMAIL_FROM : string;
  EMAIL_TO : string
}.

Definition script_mail_config : MailConfig := {|
  SMTP_HOST := "smtp.mail.com";
  SMTP_PORT := 587;
  SMTP_USERNAME := "tor.relay@activist.com";
  SMTP_PASSWORD := "YOUR_PASSWORD_HERE";
  SMTP_USE_TLS := true;
  EMAIL_FROM := "tor.relay@activist.com";
  EMAIL_TO := "tor.relay@activist.com"
|}.

(** The message [send_email] builds (lines 268-273): three headers and
    one plain-text part. *)
Record Message : Type := {
  msg_from : string;
  msg_to : string;
  msg_subject : string;
  msg_plain : string
}.

(** The calls [send_email] makes on the mail library. *)
Inductive smtp_call : Type :=
| SMTP (host : string) (port : Z)
| SMTP_SSL (host : string) (port : Z)
| Starttls
| Login (user password : string)
| Sendmail (from_addr to_addr msg : string)
| Quit.

(** The mail library as one run sees it: the outcome of each call
    (every call is made at most once), and the rendering of a message as
    text, which the script does not control. *)
Record Mail : Type := {
  smtp_reply : smtp_call -> outcome unit;
  as_string : Message -> outcome string
}.

(** What a run does to the outside: the texts it prints, and the calls
    it makes on the mail library, both in order. *)
Record Effects : Type := {
  printed : list string;
  smtp_calls : list smtp_call
}.

Definition no_effects : Effects := {| printed := []; smtp_calls := [] |}.

Definition IO (A : Type) : Type := Effects -> outcome A * Effects.

#[global] Instance IO_ret : MRet IO := fun A a fx => (Ret a, fx).
#[global] Instance IO_bind : MBind IO := fun A B f c fx =>
  match c fx with
  | (Ret a, fx') => f a fx'
  | (Raise e, fx') => (Raise e, fx')
  end.

(** A computation without effects. *)
Definition pure_call {A} (x : outcome A) : IO A := fun fx => (x, fx).

(** [print(s)] *)
Definition print (s : string) : IO unit :=
  fun fx => (Ret (), {| printed := printed fx ++ [s];
                        smtp_calls := smtp_calls fx |}).

(** A call on the mail library. *)
Definition smtp (mail : Mail) (c : smtp_call) : IO unit :=
  fun fx => (smtp_reply mail c, {| printed := printed fx;
                                   smtp_calls := smtp_calls fx ++ [c] |}).

(** [try: body  except Exception as e: handler(e)] *)
Definition try_except_io {A} (body : IO A) (handler : string -> IO A) : IO A :=
  fun fx =>
    match body fx with
    | (Ret a, fx') => (Ret a, fx')
    | (Raise e, fx') => handler e fx'
    end.

(** [send_email] (lines 266-288). *)
Definition send_email (mc : MailConfig) (mail : Mail) (subject body : string)
  : IO bool :=
  let msg := {| msg_from := EMAIL_FROM mc; msg_to := EMAIL_TO mc;
                msg_subject := subject; msg_plain := body |} in
  try_except_io
    ((if SMTP_USE_TLS mc then
        smtp mail (SMTP (SMTP_HOST mc) (SMTP_PORT mc));;
        smtp mail Starttls
      else smtp mail (SMTP_SSL (SMTP_HOST mc) (SMTP_PORT mc)));;
     smtp mail (Login (SMTP_USERNAME mc) (SMTP_PASSWORD mc));;
     text ← pure_call (as_string mail msg);
     smtp mail (Sendmail (EMAIL_FROM mc) (EMAIL_TO mc) text);;
     smtp mail Quit;;
     mret true)
    (fun e => print ("Failed to send email: " +:+ e);; mret false).

(** [main] (lines 291-319); [to_stdout] is the [--stdout] flag. *)
Definition main (cfg : Config) (mc : MailConfig) (w : World) (mail : Mail)
    (to_stdout : bool) : IO unit :=
  report ← pure_call (get_relay_report cfg w);
  report_text ← pure_call (format_report_text report);
  let subject := subject cfg report in
  if to_stdout then print report_text
  else
    sent ← send_email mc mail subject report_text;
    if (sent : bool) then print ("Report sent to " +:+ EMAIL_TO mc)
    else
      print "Email failed, dumping report:";;
      print report_text.

(* ===================================================================== *)
(** * The specification's vocabulary *)
(* ===================================================================== *)

(** ** Durations: the day/hour/minute/second breakdown *)

Definition days_of (seconds : Z) : Z := seconds / 86400.
Definition hours_of (seconds : Z) : Z := (seconds mod 86400) / 3600.
Definition minutes_of (seconds : Z) : Z := ((seconds mod 86400) mod 3600) / 60.
Definition secs_of (seconds : Z) : Z := ((seconds mod 86400) mod 3600) mod 60.

(** A segment: the value followed by its unit letter. *)
Definition segment (n : Z) (unit : string) : string := str_int n +:+ unit.

Definition seg (b : bool) (n : Z) (unit : string) : list string :=
  if b then [segment n unit] else [].

(** ** Byte counts: the unit the specification selects

    The scaled magnitude [|n| / 1024^k] is below 1024 exactly when
    [|n| < 1024 * 1024^k]; [find_unit] looks for the first such [k] among
    the units that remain, and stops at the last unit otherwise. *)

Definition unit_names : list string := ["B"; "KB"; "MB"; "GB"; "TB"; "PB"].

Definition unit_name (k : nat) : string := nth k unit_names "PB".

Fixpoint find_unit (n : Z) (k remaining : nat) : nat :=
  match remaining with
  | O => k
  | S remaining' =>
      if Z.abs n <? 1024 * 1024 ^ Z.of_nat k then k
      else find_unit n (S k) remaining'
  end.

Definition unit_index (n : Z) : nat := find_unit n 0 5.

(** [x / 1024^k], exactly. *)
Definition scaled (x : float) (k : nat) : float :=
  Float (fneg x) (fmant x) (fexp x - 10 * Z.of_nat k).

Definition is_digit (c : ascii) : bool :=
  let n := nat_of_ascii c in ((48 <=? n) && (n <=? 57))%nat.

(** A decimal rendering with exactly two digits after its only point. *)
Definition two_decimals (s : string) : Prop :=
  exists (whole : string) (d1 d2 : ascii),
    s = whole +:+ "." +:+ String d1 (str1 d2) /\
    has_char "." whole = false /\
    is_digit d1 = true /\ is_digit d2 = true.

(** The largest magnitude [float(n)] accepts is just below this bound:
    from it on, the nearest binary64 number would be [2^1024]. *)
Definition float_int_bound : Z := 2 ^ 1024 - 2 ^ 970.

(** ** The connection warning the thresholds call for *)

Definition threshold_warnings (cfg : Config) (count : Z) : list string :=
  if count <? MIN_CONNECTIONS_CRIT cfg then
    [critical_message count (MIN_CONNECTIONS_CRIT cfg)]
  else if count <? MIN_CONNECTIONS_WARN cfg then
    [warning_message count (MIN_CONNECTIONS_WARN cfg)]
  else [].

(** ** Reports and invariants *)

(** The four fields every report starts with. *)
Definition has_base_fields (w : World) (report : gmap string value) : Prop :=
  report !! "generated" = Some (VDatetime (now w)) /\
  report !! "hostname" = Some (VStr (gethostname w)) /\
  (exists warnings, report !! "warnings" = Some (VList warnings)) /\
  (exists errors, report !! "errors" = Some (VList errors)).

(** The keys of the base fields. *)
Definition base_keys : list string :=
  ["generated"; "hostname"; "warnings"; "errors"].

(** A step keeps an invariant of the report, whether it returns or
    raises. *)
Definition preserves {A} (I : gmap string value -> Prop) (c : M A) : Prop :=
  forall report, I report -> I (c report).2.

(** A step returns, and keeps an invariant. *)
Definition returns {A} (I : gmap string value -> Prop) (c : M A) : Prop :=
  forall report, I report ->
    exists a report', c report = (Ret a, report') /\ I report'.

(** The password the script authenticates with: none when the setting
    is [None] or empty. *)
Definition password_used (cfg : Config) : option string :=
  match TOR_CONTROL_PASSWORD cfg with
  | Some (String c password) => Some (String c password)
  | _ => None
  end.

(** The connection lines the script counts in an [orconn-status]
    answer. *)
Definition connection_count_of (orconn_status : string) : Z :=
  Z.of_nat (length (filter (fun line => line <> EmptyString)
                      (split_on newline (strip orconn_status)))).

(** The report once lines 104-127 have run without an exception. *)
Definition with_basic_info (version : string) (uptime : Z)
    (report : gmap string value) : gmap string value :=
  <["uptime_human" := VStr (format_duration uptime)]>
    (<["uptime_seconds" := VInt uptime]>
       (<["version" := VStr version]> report)).

Definition with_traffic (read written : Z) (read_human written_human : string)
    (report : gmap string value) : gmap string value :=
  <["traffic_written_human" := VStr written_human]>
    (<["traffic_read_human" := VStr read_human]>
       (<["bytes_written" := VInt written]>
          (<["bytes_read" := VInt read]> report))).

Definition with_identity (cfg : Config) (c : Controller) (fingerprint : string)
    (report : gmap string value) : gmap string value :=
  <["or_port" := VStr (get_conf_default c "ORPort" "9001")]>
    (<["address" := VStr (get_info_default c "address" "unknown")]>
       (<["nickname" :=
            VStr (get_conf_default c "Nickname" (RELAY_NICKNAME cfg))]>
          (<["fingerprint" := VStr fingerprint]> report))).

Definition with_connections (c : Controller) (established : string)
    (report : gmap string value) : gmap string value :=
  <["connection_count" :=
      VInt (connection_count_of (get_info_default c "orconn-status" EmptyString))]>
    (<["circuits_established" := VBool (bool_decide (established = "1"))]> report).


(** The flags the script stores for a consensus entry. *)
Definition flags_of (ns : NetworkStatus) : list string :=
  match ns_flags ns with
  | Some (flag :: flags) => flag :: flags
  | _ => []
  end.

(** The error list after the consensus lookup. *)
Definition consensus_errors (status : outcome NetworkStatus) : list string :=
  match status with
  | Ret _ => []
  | Raise e => ["Could not get network status: " +:+ e]
  end.

(** The flags stored after the consensus lookup. *)
Definition consensus_flags (status : outcome NetworkStatus) : list string :=
  match status with
  | Ret ns => flags_of ns
  | Raise _ => ["(unable to retrieve)"]
  end.

(** The warning the flag check appends for a list of flags. *)
Definition flag_warnings (w : World) (flags : list string) : list string :=
  let missing := expected_flags ∖ list_to_set flags in
  if bool_decide (flags = []) then []
  else if bool_decide (missing = ∅) then []
  else [missing_flags_message (set_order w missing)].

(** How the sections after the errors begin, footer included. *)
Definition later_headings : list string :=
  ["STATUS"; "RELAY IDENTITY"; "CONSENSUS FLAGS"; "TRAFFIC SINCE RESTART";
   rule "-" 60; "Relay search:"].

(** The errors section for a list of errors. *)
Definition errors_section (errors : list string) : list string :=
  ["ERRORS"; rule "-" 40] ++ map error_line errors ++ [EmptyString].

(** The two lines of totals in the traffic section. *)
Definition traffic_totals (report : gmap string value) : list string :=
  [rule "-" 40;
   "  Read:          " +:+ py_str (get_or report "traffic_read_human" (VStr "N/A"));
   "  Written:       " +:+ py_str (get_or report "traffic_written_human" (VStr "N/A"))].

(** ** Sample environments *)

(** [n] lines of an [orconn-status] answer. *)
Fixpoint orconn_lines (n : nat) : string :=
  match n with
  | O => EmptyString
  | S n' => "$0123456789ABCDEF~relay CONNECTED" +:+ str1 newline
            +:+ orconn_lines n'
  end.

(** A healthy relay: up for 3661 seconds, 75 OR connections, the flags
    Running and Valid, no accounting. *)
Definition healthy_info (key : string) : outcome string :=
  if bool_decide (key = "uptime") then Ret "3661"
  else if bool_decide (key = "traffic/read") then Ret "123456789"
  else if bool_decide (key = "traffic/written") then Ret "987654321"
  else if bool_decide (key = "fingerprint")
  then Ret "9695DFC35FFEB861329B9F1AB04C46397020CE31"
  else if bool_decide (key = "address") then Ret "203.0.113.7"
  else if bool_decide (key = "status/circuit-established") then Ret "1"
  else if bool_decide (key = "orconn-status") then Ret (orconn_lines 75)
  else if bool_decide (key = "accounting/enabled") then Ret "0"
  else Raise ("Unrecognized key " +:+ key).

Definition healthy_conf (key : string) : outcome string :=
  if bool_decide (key = "Nickname") then Ret "OnionPie"
  else if bool_decide (key = "ORPort") then Ret "9001"
  else Raise ("Unrecognized option " +:+ key).

Definition healthy_status : NetworkStatus := {|
  ns_flags := Some ["Running"; "Valid"];
  ns_bandwidth := Some 4200;
  ns_published := Some (Datetime 2024 2 29 18 0 0 0)
|}.

Definition healthy_controller : Controller := {|
  authenticate := fun _ => Ret ();
  get_version := Ret "0.4.8.10";
  get_info := healthy_info;
  get_conf := healthy_conf;
  get_network_status := fun _ => Ret healthy_status
|}.

Definition world_of (c : outcome Controller) : World := {|
  now := Datetime 2024 3 1 8 0 0 0;
  gethostname := "raspberrypi";
  from_port := fun _ _ => c;
  set_order := elements
|}.

Definition healthy_world : World := world_of (Ret healthy_controller).

(** The same relay when the version query fails. *)
Definition version_fails : Controller := {|
  authenticate := authenticate healthy_controller;
  get_version := Raise "GETINFO version failed";
  get_info := healthy_info;
  get_conf := healthy_conf;
  get_network_status := get_network_status healthy_controller
|}.

(** The same relay with accounting enabled and its byte allowance
    unavailable. *)
Definition accounting_fails : Controller := {|
  authenticate := authenticate healthy_controller;
  get_version := get_version healthy_controller;
  get_info := fun key =>
    if bool_decide (key = "accounting/enabled") then Ret "1"
    else if bool_decide (key = "accounting/bytes-left")
    then Raise "GETINFO accounting/bytes-left failed"
    else healthy_info key;
  get_conf := healthy_conf;
  get_network_status := get_network_status healthy_controller
|}.

(** The same relay when the consensus has no entry for it. *)
Definition consensus_fails : Controller := {|
  authenticate := authenticate healthy_controller;
  get_version := get_version healthy_controller;
  get_info := healthy_info;
  get_conf := healthy_conf;
  get_network_status := fun _ => Raise "GETINFO ns/id failed"
|}.

(** The same relay when every query that has a default, the consensus
    lookup and the accounting lookup fail. *)
Definition required_only : Controller := {|
  authenticate := authenticate healthy_controller;
  get_version := get_version healthy_controller;
  get_info := fun key =>
    if bool_decide (key ∈ ["uptime"; "traffic/read"; "traffic/written";
                           "fingerprint"; "status/circuit-established"])
    then healthy_info key
    else Raise ("GETINFO " +:+ key +:+ " failed");
  get_conf := fun key => Raise ("GETCONF " +:+ key +:+ " failed");
  get_network_status := fun _ => Raise "GETINFO ns/id failed"
|}.

(** A report as the threshold check finds it, with 3 connections. *)
Definition quiet_report : gmap string value :=
  <["connection_count" := VInt 3]> (<["warnings" := VList []]> ∅).

(** A report with an uptime and traffic counters. *)
Definition traffic_report : gmap string value :=
  <["uptime_seconds" := VInt 3661]>
    (<["bytes_read" := VInt 123456789]>
       (<["bytes_written" := VInt 987654321]> (initial_report healthy_world))).

(** A report after a failed connection. *)
Definition failed_report : gmap string value :=
  <["errors" := VList [connect_failure "[Errno 111] Connection refused"]]>
    (initial_report healthy_world).

(** ** The mail session *)

(** The message [send_email] hands to the mail library. *)
Definition message_of (mc : MailConfig) (subject body : string) : Message :=
  {| msg_from := EMAIL_FROM mc; msg_to := EMAIL_TO mc;
     msg_subject := subject; msg_plain := body |}.

(** The calls of a complete session, in order, for a rendered message. *)
Definition session_calls (mc : MailConfig) (text : string) : list smtp_call :=
  (if SMTP_USE_TLS mc
   then [SMTP (SMTP_HOST mc) (SMTP_PORT mc); Starttls]
   else [SMTP_SSL (SMTP_HOST mc) (SMTP_PORT mc)])
  ++ [Login (SMTP_USERNAME mc) (SMTP_PASSWORD mc);
      Sendmail (EMAIL_FROM mc) (EMAIL_TO mc) text;
      Quit].

(** The calls made on top of those already made: [made] extends the
    effects [fx] into [fx']. *)
Definition calls_added (fx fx' : Effects) (made : list smtp_call) : Prop :=
  smtp_calls fx' = smtp_calls fx ++ made.

Definition prints_added (fx fx' : Effects) (lines : list string) : Prop :=
  printed fx' = printed fx ++ lines.

(** A mail library on which every call succeeds, and one that refuses
    the login. *)
Definition plain_rendering (msg : Message) : outcome string :=
  Ret ("Subject: " +:+ msg_subject msg +:+ str1 newline +:+ str1 newline
       +:+ msg_plain msg).

Definition working_mail : Mail := {|
  smtp_reply := fun _ => Ret ();
  as_string := plain_rendering
|}.

Definition login_refused : Mail := {|
  smtp_reply := fun c =>
    match c with
    | Login _ _ => Raise "(535, b'Authentication credentials invalid')"
    | _ => Ret ()
    end;
  as_string := plain_rendering
|}.

(** The calls up to the login. *)
Definition login_calls (mc : MailConfig) : list smtp_call :=
  (if SMTP_USE_TLS mc
   then [SMTP (SMTP_HOST mc) (SMTP_PORT mc); Starttls]
   else [SMTP_SSL (SMTP_HOST mc) (SMTP_PORT mc)])
  ++ [Login (SMTP_USERNAME mc) (SMTP_PASSWORD mc)].

(** A list of calls made one after the other, up to the first that
    raises. *)
Fixpoint smtp_all (mail : Mail) (calls : list smtp_call) : IO unit :=
  match calls with
  | [] => mret ()
  | c :: calls' => smtp mail c;; smtp_all mail calls'
  end.

Definition add_calls (fx : Effects) (calls : list smtp_call) : Effects :=
  {| printed := printed fx; smtp_calls := smtp_calls fx ++ calls |}.

Definition add_prints (fx : Effects) (lines : list string) : Effects :=
  {| printed := printed fx ++ lines; smtp_calls := smtp_calls fx |}.

(** The healthy relay reporting an uptime beyond what a [timedelta]
    holds. *)
Definition endless_uptime : Controller := {|
  authenticate := authenticate healthy_controller;
  get_version := get_version healthy_controller;
  get_info := fun key =>
    if bool_decide (key = "uptime") then Ret "100000000000000000"
    else healthy_info key;
  get_conf := healthy_conf;
  get_network_status := get_network_status healthy_controller
|}.

(** ** Diagnostics of the collector *)

(** Nothing has been recorded yet. *)
Definition no_diagnostics (report : gmap string value) : Prop :=
  report !! "warnings" = Some (VList []) /\
  report !! "errors" = Some (VList []).

(** Lines 129-170: what follows the collection of the fields. *)
Definition checks_and_lookups (cfg : Config) (w : World) (c : Controller)
  : M unit :=
  check_connection_thresholds cfg;;
  collect_network_status c;;
  check_expected_flags w;;
  collect_accounting c.

(** The fields the formatter computes with, as the collector types
    them. *)
Definition has_typed_fields (report : gmap string value) : Prop :=
  (exists uptime, report !! "uptime_seconds" = Some (VInt uptime)) /\
  (exists read, report !! "bytes_read" = Some (VInt read)) /\
  (exists written, report !! "bytes_written" = Some (VInt written)) /\
  (exists fingerprint, report !! "fingerprint" = Some (VStr fingerprint)) /\
  (exists flags, report !! "flags" = Some (VList flags)).


(** The fields [format_report_text] can show besides the four of the
    initial record. *)
Definition data_keys : list string :=
  ["nickname"; "circuits_established"; "connection_count"; "uptime_human";
   "version"; "address"; "or_port"; "fingerprint"; "flags";
   "uptime_seconds"; "traffic_read_human"; "traffic_written_human";
   "bytes_read"; "bytes_written"].

(** The keys that occur in [format_report_text] and in lines 301-309 of
    [main]. *)
Definition formatter_keys : list string :=
  ["generated"; "hostname"; "warnings"; "errors"] ++ data_keys.
(* ===================================================================== *)
(** * Proofs *)
(* ===================================================================== *)

(** ** Strings *)

Section StringFacts.

(** stdpp keeps the string append from unfolding under [simpl]; these
    two equations are its defining clauses. *)
Lemma append_nil_l (s : string) : EmptyString +:+ s = s.
Proof. reflexivity. Qed.

Lemma append_cons (c : ascii) (s t : string) :
  String c s +:+ t = String c (s +:+ t).
Proof. reflexivity. Qed.

Lemma append_nil_r (s : string) : s +:+ EmptyString = s.
Proof.
  induction s as [|c s IH]; [reflexivity|]. now rewrite append_cons, IH.
Qed.

Lemma append_assoc (a b c : string) : (a +:+ b) +:+ c = a +:+ (b +:+ c).
Proof.
  induction a as [|x a IH]; [reflexivity|]. now rewrite !append_cons, IH.
Qed.

(** A string is determined by its last character and what precedes. *)
Lemma append_last_inj (a b : string) (c d : ascii) :
  a +:+ str1 c = b +:+ str1 d -> a = b /\ c = d.
Proof.
  unfold str1. revert b. induction a as [|x a IH]; intros [|y b];
    rewrite ?append_cons, ?append_nil_l; intros H.
  - now inversion H.
  - inversion H as [[Hx Hb]]. destruct b; discriminate.
  - inversion H as [[Hx Ha]]. destruct a; discriminate.
  - inversion H as [[Hx Hab]]. destruct (IH _ Hab) as [-> ->]. now subst.
Qed.

Lemma append_last_not_nil (a : string) (c : ascii) :
  a +:+ str1 c <> EmptyString.
Proof. destruct a; discriminate. Qed.


End StringFacts.

(** ** Durations *)

Section Duration.

Lemma divmod_spec (a b : Z) : divmod a b = (a / b, a mod b).
Proof. unfold divmod, Z.div, Z.modulo. now destruct (Z.div_eucl a b). Qed.

(** The parts are the four segments, each kept or dropped. *)
Lemma duration_parts_unfold (seconds : Z) :
  duration_parts seconds =
    seg (0 <? days_of seconds) (days_of seconds) "d" ++
    seg (0 <? hours_of seconds) (hours_of seconds) "h" ++
    seg (0 <? minutes_of seconds) (minutes_of seconds) "m" ++
    seg ((0 <? secs_of seconds) ||
         negb (0 <? days_of seconds) && negb (0 <? hours_of seconds)
         && negb (0 <? minutes_of seconds))
        (secs_of seconds) "s".
Proof.
  unfold duration_parts, days_of, hours_of, minutes_of, secs_of, seg, segment.
  rewrite !divmod_spec.
  destruct (0 <? seconds / 86400), (0 <? seconds mod 86400 / 3600),
    (0 <? (seconds mod 86400) mod 3600 / 60),
    (0 <? ((seconds mod 86400) mod 3600) mod 60); reflexivity.
Qed.

Lemma breakdown_nonneg (seconds : Z) :
  0 <= seconds ->
  0 <= days_of seconds /\ 0 <= hours_of seconds /\
  0 <= minutes_of seconds /\ 0 <= secs_of seconds.
Proof.
  intros H. unfold days_of, hours_of, minutes_of, secs_of.
  repeat split.
  - apply Z.div_pos; lia.
  - apply Z.div_pos; [apply Z.mod_pos_bound|]; lia.
  - apply Z.div_pos; [apply Z.mod_pos_bound|]; lia.
  - apply Z.mod_pos_bound; lia.
Qed.

Lemma in_seg (x : string) (b : bool) (n : Z) (unit : string) :
  In x (seg b n unit) <-> b = true /\ x = segment n unit.
Proof.
  unfold seg. destruct b; simpl; intuition (try discriminate; auto).
Qed.

(** A segment is recognised by its unit letter. *)
Lemma segment_unit_differs (a b : Z) (c d : ascii) :
  c <> d -> segment a (str1 c) <> segment b (str1 d).
Proof. intros Hcd Heq. apply append_last_inj in Heq. tauto. Qed.

Lemma in_segs (x : string) (bd bh bm bs : bool) (d h m s : Z) :
  In x (seg bd d "d" ++ seg bh h "h" ++ seg bm m "m" ++ seg bs s "s") <->
  (bd = true /\ x = segment d "d") \/
  (bh = true /\ x = segment h "h") \/
  (bm = true /\ x = segment m "m") \/
  (bs = true /\ x = segment s "s").
Proof. rewrite !in_app_iff, !in_seg. tauto. Qed.

End Duration.



(** ** Running the steps of the collector *)

Section Steps.

Implicit Types report : gmap string value.

Lemma run_bind {A B} (c : M A) (f : A -> M B) report :
  (c ≫= f) report =
    match c report with
    | (Ret a, report') => f a report'
    | (Raise e, report') => (Raise e, report')
    end.
Proof. reflexivity. Qed.

Lemma run_call_bind {A B} (x : outcome A) (f : A -> M B) report :
  (call x ≫= f) report =
    match x with
    | Ret a => f a report
    | Raise e => (Raise e, report)
    end.
Proof. rewrite run_bind. unfold call. now destruct x. Qed.

Lemma run_setitem_bind {B} key v (f : unit -> M B) report :
  (setitem key v ≫= f) report = f () (<[key := v]> report).
Proof. reflexivity. Qed.

Lemma run_item key v report :
  report !! key = Some v -> item key report = (Ret v, report).
Proof. intros H. unfold item, getitem. now rewrite H. Qed.

Lemma run_item_int key n report :
  report !! key = Some (VInt n) -> item_int key report = (Ret n, report).
Proof.
  intros H. unfold item_int. rewrite run_bind, (run_item _ _ _ H).
  reflexivity.
Qed.

Lemma run_append_item key l s report :
  report !! key = Some (VList l) ->
  append_item key s report = (Ret (), <[key := VList (l ++ [s])]> report).
Proof.
  intros H. unfold append_item. rewrite run_bind, (run_item _ _ _ H).
  reflexivity.
Qed.

Lemma run_get key report :
  get key report = (Ret (get_or report key VNone), report).
Proof. reflexivity. Qed.

(** Reading a result off an evaluated outcome. *)
Lemma outcome_inv {A B} (x : outcome A) (f : A -> B) (v : B) :
  match x with Ret a => Some (f a) | Raise _ => None end = Some v ->
  exists a, x = Ret a /\ f a = v.
Proof. destruct x as [a|e]; [|discriminate]. intros [= <-]. eauto. Qed.

End Steps.

(** ** The connection thresholds *)

Section Thresholds.

Variable cfg : Config.
Implicit Types report : gmap string value.

(** The check appends the warnings the thresholds call for, and does
    nothing else. *)
Lemma check_connection_thresholds_run report count warnings :
  report !! "connection_count" = Some (VInt count) ->
  report !! "warnings" = Some (VList warnings) ->
  check_connection_thresholds cfg report =
    (Ret (),
     <["warnings" := VList (warnings ++ threshold_warnings cfg count)]> report).
Proof.
  intros Hcount Hwarn. unfold check_connection_thresholds, threshold_warnings.
  rewrite run_bind, (run_item_int _ _ _ Hcount).
  destruct (count <? MIN_CONNECTIONS_CRIT cfg).
  - rewrite run_bind, (run_item_int _ _ _ Hcount).
    apply run_append_item, Hwarn.
  - rewrite run_bind, (run_item_int _ _ _ Hcount).
    destruct (count <? MIN_CONNECTIONS_WARN cfg).
    + rewrite run_bind, (run_item_int _ _ _ Hcount).
      apply run_append_item, Hwarn.
    + rewrite app_nil_r, insert_id by exact Hwarn. reflexivity.
Qed.


End Thresholds.



(** ** The subject line *)

(** C9.  The indicator of the subject line is selected from the two
    diagnostic lists alone, warnings first: the warning indicator when the
    warning list is non-empty, else the error indicator when the error
    list is non-empty, else the all-clear indicator; the subject starts
    with it.  No rendered text enters the selection. *)
Theorem subject_indicator
    (cfg : Config) (report : gmap string value) (warnings errors : list string) :
  report !! "warnings" = Some (VList warnings) ->
  report !! "errors" = Some (VList errors) ->
  status_emoji report =
    match warnings, errors with
    | _ :: _, _ => "⚠️"
    | [], _ :: _ => "❌"
    | [], [] => "✅"
    end /\
  subject cfg report =
    status_emoji report +:+ " Tor Relay Report: "
    +:+ py_str (get_or report "nickname" (VStr (RELAY_NICKNAME cfg))) /\
  (forall report' : gmap string value,
     report' !! "warnings" = Some (VList warnings) ->
     report' !! "errors" = Some (VList errors) ->
     status_emoji report' = status_emoji report).
Proof.
  intros Hw He.
  assert (Hsel : forall r : gmap string value,
             r !! "warnings" = Some (VList warnings) ->
             r !! "errors" = Some (VList errors) ->
             status_emoji r =
               match warnings, errors with
               | _ :: _, _ => "⚠️"
               | [], _ :: _ => "❌"
               | [], [] => "✅"
               end).
  { intros r Hrw Hre. unfold status_emoji, get_or. rewrite Hrw, Hre.
    destruct warnings, errors; reflexivity. }
  split; [now apply Hsel|]. split; [reflexivity|].
  intros report' Hw' He'. now rewrite (Hsel report'), (Hsel report).
Qed.

(** A report with one error and no warning gets the error indicator. *)
Lemma subject_indicator_witness :
  status_emoji failed_report = "❌".
Proof.
  destruct (subject_indicator script_config failed_report []
              [connect_failure "[Errno 111] Connection refused"]
              eq_refl eq_refl) as (Hsel & _).
  exact Hsel.
Defined.

(** ** What every step of the collector keeps *)

Section Invariant.

Context {I : gmap string value -> Prop}.

Lemma preserves_ret {A} (a : A) : preserves I (mret a).
Proof. intros report H. exact H. Qed.

Lemma preserves_call {A} (x : outcome A) : preserves I (call x).
Proof. intros report H. exact H. Qed.

Lemma preserves_item key : preserves I (item key).
Proof. intros report H. exact H. Qed.

Lemma preserves_get key : preserves I (get key).
Proof. intros report H. exact H. Qed.

Lemma preserves_bind {A B} (c : M A) (f : A -> M B) :
  preserves I c -> (forall a, preserves I (f a)) -> preserves I (c ≫= f).
Proof.
  intros Hc Hf report H. rewrite run_bind.
  specialize (Hc report H). destruct (c report) as [[a|e] report']; simpl in *.
  - now apply Hf.
  - exact Hc.
Qed.

Lemma preserves_item_int key : preserves I (item_int key).
Proof.
  apply preserves_bind; [apply preserves_item|].
  intros []; first [apply preserves_ret | apply preserves_call].
Qed.

Lemma preserves_try {A} (body : M A) (handler : string -> M A) :
  preserves I body -> (forall e, preserves I (handler e)) ->
  preserves I (try_except body handler).
Proof.
  intros Hb Hh report H. unfold try_except.
  specialize (Hb report H). destruct (body report) as [[a|e] report']; simpl in *.
  - exact Hb.
  - now apply Hh.
Qed.

Lemma preserves_if {A} (b : bool) (c1 c2 : M A) :
  preserves I c1 -> preserves I c2 -> preserves I (if b then c1 else c2).
Proof. now destruct b. Qed.

End Invariant.

Section BaseFields.

Variable w : World.

Lemma base_fields_initial : has_base_fields w (initial_report w).
Proof.
  unfold has_base_fields, initial_report.
  split; [reflexivity|]. split; [reflexivity|].
  split; exists []; reflexivity.
Qed.

(** Writing any other key leaves the base fields alone. *)
Lemma preserves_setitem key v :
  key ∉ base_keys -> preserves (has_base_fields w) (setitem key v).
Proof.
  unfold base_keys. rewrite !not_elem_of_cons.
  intros (Hk1 & Hk2 & Hk3 & Hk4 & _) report (Hg & Hh & Hw & He).
  unfold setitem, has_base_fields; simpl.
  rewrite !lookup_insert_ne by assumption. tauto.
Qed.

(** Appending to a diagnostic list keeps it a list. *)
Lemma append_item_base key s report :
  key = "warnings" \/ key = "errors" -> has_base_fields w report ->
  exists l, report !! key = Some (VList l) /\
    append_item key s report = (Ret (), <[key := VList (l ++ [s])]> report) /\
    has_base_fields w (<[key := VList (l ++ [s])]> report).
Proof.
  intros Hkey (Hg & Hh & (ws & Hw) & (es & He)).
  destruct Hkey as [-> | ->]; [exists ws | exists es].
  - split; [assumption|]. split; [now apply run_append_item|].
    unfold has_base_fields.
    rewrite lookup_insert_eq, !lookup_insert_ne by discriminate.
    repeat split; eauto.
  - split; [assumption|]. split; [now apply run_append_item|].
    unfold has_base_fields.
    rewrite lookup_insert_eq, !lookup_insert_ne by discriminate.
    repeat split; eauto.
Qed.

Lemma preserves_append key s :
  key = "warnings" \/ key = "errors" -> preserves (has_base_fields w) (append_item key s).
Proof.
  intros Hkey report H.
  destruct (append_item_base key s report Hkey H) as (l & _ & -> & HI).
  exact HI.
Qed.

Lemma returns_append key s :
  key = "warnings" \/ key = "errors" -> returns (has_base_fields w) (append_item key s).
Proof.
  intros Hkey report H.
  destruct (append_item_base key s report Hkey H) as (l & _ & -> & HI).
  eauto.
Qed.

End BaseFields.

(** Decompose a block of the collector into its steps. *)
Ltac keep_base_fields :=
  repeat first
    [ apply preserves_ret
    | apply preserves_call
    | apply preserves_item
    | apply preserves_get
    | apply preserves_item_int
    | apply preserves_setitem; unfold base_keys;
      rewrite !not_elem_of_cons; repeat split; (discriminate || apply not_elem_of_nil)
    | apply preserves_append; tauto
    | apply preserves_bind; [|intros ?]
    | apply preserves_try; [|intros ?]
    | apply preserves_if
    | match goal with
      | |- preserves _ (match ?x with _ => _ end) => destruct x
      end ].

Section CollectorInvariant.

Variables (cfg : Config) (w : World).

Lemma preserves_collect_basic_info c : preserves (has_base_fields w) (collect_basic_info c).
Proof. unfold collect_basic_info. keep_base_fields. Qed.

Lemma preserves_collect_traffic c : preserves (has_base_fields w) (collect_traffic c).
Proof. unfold collect_traffic. keep_base_fields. Qed.

Lemma preserves_collect_identity c : preserves (has_base_fields w) (collect_identity cfg c).
Proof. unfold collect_identity. keep_base_fields. Qed.

Lemma preserves_collect_connections c : preserves (has_base_fields w) (collect_connections c).
Proof. unfold collect_connections. keep_base_fields. Qed.

Lemma preserves_check_connection_thresholds :
  preserves (has_base_fields w) (check_connection_thresholds cfg).
Proof. unfold check_connection_thresholds. keep_base_fields. Qed.

Lemma preserves_collect_network_status c :
  preserves (has_base_fields w) (collect_network_status c).
Proof. unfold collect_network_status. keep_base_fields. Qed.

Lemma preserves_check_expected_flags : preserves (has_base_fields w) (check_expected_flags w).
Proof. unfold check_expected_flags. keep_base_fields. Qed.

Lemma preserves_collect_accounting c : preserves (has_base_fields w) (collect_accounting c).
Proof. unfold collect_accounting. keep_base_fields. Qed.

Lemma preserves_collect : preserves (has_base_fields w) (collect cfg w).
Proof.
  unfold collect.
  apply preserves_bind; [apply preserves_call|]. intros controller.
  apply preserves_bind; [apply preserves_call|]. intros _.
  repeat (apply preserves_bind; [|intros _]);
    auto using preserves_collect_basic_info, preserves_collect_traffic,
      preserves_collect_identity, preserves_collect_connections,
      preserves_check_connection_thresholds,
      preserves_collect_network_status, preserves_check_expected_flags,
      preserves_collect_accounting.
Qed.

(** The report [get_relay_report] returns, from how the collection
    ended. *)
Lemma get_relay_report_run :
  match collect cfg w (initial_report w) with
  | (Ret _, report) =>
      get_relay_report cfg w = Ret report /\ has_base_fields w report
  | (Raise e, report) =>
      exists errors,
        report !! "errors" = Some (VList errors) /\
        get_relay_report cfg w =
          Ret (<["errors" := VList (errors ++ [connect_failure e])]> report) /\
        has_base_fields w (<["errors" := VList (errors ++ [connect_failure e])]> report)
  end.
Proof.
  pose proof (preserves_collect _ (base_fields_initial w)) as HI.
  unfold get_relay_report, try_except.
  destruct (collect cfg w (initial_report w)) as [[[]|e] report]; simpl in *.
  - split; [reflexivity | exact HI].
  - destruct (append_item_base w "errors" (connect_failure e) report
                (or_intror eq_refl) HI) as (errors & He & Hrun & HI').
    exists errors. rewrite Hrun. auto.
Qed.

Lemma get_relay_report_base :
  exists report, get_relay_report cfg w = Ret report /\ has_base_fields w report.
Proof.
  pose proof get_relay_report_run as H.
  destruct (collect cfg w (initial_report w)) as [[[]|e] report].
  - eauto.
  - destruct H as (errors & _ & Hrun & HI). eauto.
Qed.

End CollectorInvariant.

(** ** The collector always returns a report with its base fields *)

Section FormatterAccesses.

Variable w : World.

(** Lines 183-207 of the formatter read the generation time and the two
    diagnostic lists without a default; with the base fields present
    these reads succeed. *)
Lemma formatter_accesses (report : gmap string value) :
  has_base_fields w report ->
  exists header alerts errors stop,
    header_lines report = Ret header /\
    alert_lines report = Ret alerts /\
    error_lines report = Ret errors /\
    stops_after_errors report = Ret stop.
Proof.
  intros (Hg & Hh & (ws & Hw) & (es & He)).
  unfold header_lines, alert_lines, error_lines, stops_after_errors,
    getitem, get_or.
  rewrite Hg, Hw, He. simpl.
  destruct ws, es; simpl; eauto 10.
Qed.

End FormatterAccesses.

(** C10.  On every execution path [get_relay_report] returns a record
    that holds the generation time, the host name and the two diagnostic
    lists, warnings and errors being lists; so the reads of the formatter
    that have no default (the generation time, the diagnostic lists)
    succeed on every report of the collector. *)
Theorem report_base_fields (cfg : Config) (w : World) :
  exists report,
    get_relay_report cfg w = Ret report /\
    report !! "generated" = Some (VDatetime (now w)) /\
    report !! "hostname" = Some (VStr (gethostname w)) /\
    (exists warnings, report !! "warnings" = Some (VList warnings)) /\
    (exists errors, report !! "errors" = Some (VList errors)) /\
    (exists header alerts errors stop,
       header_lines report = Ret header /\
       alert_lines report = Ret alerts /\
       error_lines report = Ret errors /\
       stops_after_errors report = Ret stop).
Proof.
  destruct (get_relay_report_base cfg w) as (report & Hrun & Hbase).
  exists report. split; [exact Hrun|].
  pose proof (formatter_accesses w report Hbase) as Hfmt.
  destruct Hbase as (Hg & Hh & Hw & He). auto 10.
Qed.

(** ** What the collector records of a failure *)

Section Failures.

Variables (cfg : Config) (w : World).

Lemma authenticate_call (c : Controller) :
  match TOR_CONTROL_PASSWORD cfg with
  | Some (String ch password) => authenticate c (Some (String ch password))
  | _ => authenticate c None
  end = authenticate c (password_used cfg).
Proof.
  unfold password_used.
  destruct (TOR_CONTROL_PASSWORD cfg) as [[|]|]; reflexivity.
Qed.

(** The report when nothing was collected. *)
Lemma nothing_collected (e : string) :
  collect cfg w (initial_report w) = (Raise e, initial_report w) ->
  get_relay_report cfg w =
    Ret (<["errors" := VList [connect_failure e]]> (initial_report w)).
Proof.
  intros H. unfold get_relay_report, try_except. rewrite H.
  rewrite (run_append_item "errors" [] _ (initial_report w)); reflexivity.
Qed.

Lemma connection_fails (e : string) :
  from_port w (TOR_CONTROL_HOST cfg) (TOR_CONTROL_PORT cfg) = Raise e ->
  collect cfg w (initial_report w) = (Raise e, initial_report w).
Proof. intros H. unfold collect. rewrite run_call_bind, H. reflexivity. Qed.

Lemma authentication_fails (c : Controller) (e : string) :
  from_port w (TOR_CONTROL_HOST cfg) (TOR_CONTROL_PORT cfg) = Ret c ->
  authenticate c (password_used cfg) = Raise e ->
  collect cfg w (initial_report w) = (Raise e, initial_report w).
Proof.
  intros Hc Ha. unfold collect.
  rewrite run_call_bind, Hc, authenticate_call, run_call_bind, Ha.
  reflexivity.
Qed.

Lemma dom_nothing_collected (errors : list string) :
  dom (<["errors" := VList errors]> (initial_report w))
  = list_to_set base_keys.
Proof.
  unfold initial_report. rewrite !dom_insert_L, dom_empty_L.
  unfold base_keys. simpl. set_solver.
Qed.

(** The accounting step never raises and records nothing of a
    failure. *)
Lemma collect_accounting_silent (c : Controller) (report : gmap string value) :
  exists report',
    collect_accounting c report = (Ret (), report') /\
    report' !! "errors" = report !! "errors" /\
    report' !! "warnings" = report !! "warnings".
Proof.
  unfold collect_accounting, try_except.
  destruct (bool_decide _).
  - rewrite run_call_bind.
    destruct (get_info c "accounting/bytes-left"); [|eauto].
    rewrite run_call_bind.
    destruct (get_info c "accounting/interval-end"); [|eauto].
    eexists. split; [reflexivity|]. unfold setitem; simpl.
    rewrite !lookup_insert_ne by discriminate. auto.
  - eauto.
Qed.

End Failures.

(** C3, as amended.  Whatever the external queries do,
    [get_relay_report] returns a report and raises nothing.  A failure to
    open the session, or to authenticate, records exactly one error, the
    Failed-to-connect entry with the failure's message, and leaves no
    field besides the generation time, the host name, the warnings and
    the errors.  Every exception that leaves the collection body, at
    whatever step, is appended to the error list as a Failed-to-connect
    entry.  The accounting step raises nothing and appends nothing: its
    failures leave no entry. *)
Theorem get_relay_report_never_raises (cfg : Config) (w : World) :
  (exists report, get_relay_report cfg w = Ret report) /\
  (forall e,
     from_port w (TOR_CONTROL_HOST cfg) (TOR_CONTROL_PORT cfg) = Raise e ->
     exists report,
       get_relay_report cfg w = Ret report /\
       report = <["errors" := VList [connect_failure e]]> (initial_report w) /\
       dom report = list_to_set base_keys /\
       report !! "warnings" = Some (VList [])) /\
  (forall c e,
     from_port w (TOR_CONTROL_HOST cfg) (TOR_CONTROL_PORT cfg) = Ret c ->
     authenticate c (password_used cfg) = Raise e ->
     exists report,
       get_relay_report cfg w = Ret report /\
       report = <["errors" := VList [connect_failure e]]> (initial_report w) /\
       dom report = list_to_set base_keys /\
       report !! "warnings" = Some (VList [])) /\
  (forall e report',
     collect cfg w (initial_report w) = (Raise e, report') ->
     exists errors,
       report' !! "errors" = Some (VList errors) /\
       get_relay_report cfg w =
         Ret (<["errors" := VList (errors ++ [connect_failure e])]> report')) /\
  (forall c report,
     exists report',
       collect_accounting c report = (Ret (), report') /\
       report' !! "errors" = report !! "errors").
Proof.
  assert (Hnone : forall e,
             collect cfg w (initial_report w) = (Raise e, initial_report w) ->
             exists report,
               get_relay_report cfg w = Ret report /\
               report = <["errors" := VList [connect_failure e]]> (initial_report w) /\
               dom report = list_to_set base_keys /\
               report !! "warnings" = Some (VList [])).
  { intros e H. eexists. split; [apply nothing_collected, H|].
    split; [reflexivity|]. split; [apply dom_nothing_collected|reflexivity]. }
  split; [|split; [|split; [|split]]].
  - destruct (get_relay_report_base cfg w) as (report & H & _). eauto.
  - intros e H. apply Hnone, connection_fails, H.
  - intros c e Hc Ha. apply Hnone. eapply authentication_fails; eassumption.
  - intros e report' H. pose proof (get_relay_report_run cfg w) as Hrun.
    rewrite H in Hrun. destruct Hrun as (errors & He & Hr & _). eauto.
  - intros c report.
    destruct (collect_accounting_silent c report) as (report' & H1 & H2 & _).
    eauto.
Qed.

(** The statement where the control port refuses the connection. *)
Lemma get_relay_report_never_raises_witness :
  get_relay_report script_config
    (world_of (Raise "[Errno 111] Connection refused"))
  = Ret (<["errors" :=
            VList [connect_failure "[Errno 111] Connection refused"]]>
           (initial_report (world_of (Raise "[Errno 111] Connection refused")))).
Proof.
  destruct (get_relay_report_never_raises script_config
              (world_of (Raise "[Errno 111] Connection refused")))
    as (_ & Hconn & _).
  destruct (Hconn "[Errno 111] Connection refused" eq_refl)
    as (report & Hrun & -> & _).
  exact Hrun.
Defined.

(** C3 as stated fails: with accounting enabled and its byte allowance
    unavailable, a query of the collection fails and the returned report
    has an empty error list (and no accounting record). *)
Lemma accounting_failure_not_recorded :
  get_info_default accounting_fails "accounting/enabled" "0" = "1" /\
  get_info accounting_fails "accounting/bytes-left"
    = Raise "GETINFO accounting/bytes-left failed" /\
  exists report,
    get_relay_report script_config (world_of (Ret accounting_fails)) = Ret report /\
    report !! "errors" = Some (VList []) /\
    report !! "accounting" = None.
Proof.
  split; [reflexivity|]. split; [reflexivity|].
  destruct (outcome_inv
              (get_relay_report script_config (world_of (Ret accounting_fails)))
              (fun report => (report !! "errors", report !! "accounting"))
              (Some (VList []), None))
    as (report & Hrun & [= Herrors Haccounting]).
  { vm_compute. reflexivity. }
  eauto.
Qed.

(** ** The collector, block by block *)

Section Blocks.

Variables (cfg : Config) (w : World) (c : Controller).
Implicit Types report : gmap string value.



Lemma collect_identity_run report fp :
  get_info c "fingerprint" = Ret fp ->
  collect_identity cfg c report = (Ret (), with_identity cfg c fp report).
Proof.
  intros Hf. unfold collect_identity.
  rewrite run_call_bind, Hf. reflexivity.
Qed.

Lemma collect_connections_run report est :
  get_info c "status/circuit-established" = Ret est ->
  collect_connections c report = (Ret (), with_connections c est report).
Proof.
  intros He. unfold collect_connections.
  rewrite run_call_bind, He. reflexivity.
Qed.

(** The consensus lookup never raises: it stores the entry, or the
    placeholder and one error. *)
Lemma collect_network_status_run report fp errors :
  report !! "fingerprint" = Some (VStr fp) ->
  report !! "errors" = Some (VList errors) ->
  collect_network_status c report =
    (Ret (),
     match get_network_status c fp with
     | Ret ns =>
         <["published" := option_value VDatetime (ns_published ns)]>
           (<["bandwidth" := option_value VInt (ns_bandwidth ns)]>
              (<["flags" := VList (flags_of ns)]> report))
     | Raise e =>
         <["errors" :=
             VList (errors ++ ["Could not get network status: " +:+ e])]>
           (<["flags" := VList ["(unable to retrieve)"]]> report)
     end).
Proof.
  intros Hfp He. unfold collect_network_status, try_except.
  rewrite run_bind, (run_item _ _ _ Hfp), run_call_bind. simpl py_str.
  destruct (get_network_status c fp) as [ns|e].
  - reflexivity.
  - rewrite run_setitem_bind.
    rewrite (run_append_item "errors" errors)
      by (rewrite lookup_insert_ne by discriminate; exact He).
    reflexivity.
Qed.

(** The flag check never raises: it appends the warning that
    [flag_warnings] describes. *)
Lemma check_expected_flags_run report flags warnings :
  report !! "flags" = Some (VList flags) ->
  report !! "warnings" = Some (VList warnings) ->
  check_expected_flags w report =
    (Ret (), <["warnings" := VList (warnings ++ flag_warnings w flags)]> report).
Proof.
  intros Hf Hw. unfold check_expected_flags, flag_warnings.
  rewrite run_bind, run_get. unfold get_or. rewrite Hf. unfold truthy.
  destruct (bool_decide (flags = [])); cbn [negb].
  - rewrite app_nil_r, insert_id by exact Hw. reflexivity.
  - rewrite run_bind, (run_item _ _ _ Hf).
    destruct (bool_decide (expected_flags ∖ list_to_set flags = ∅)).
    + rewrite app_nil_r, insert_id by exact Hw. reflexivity.
    + apply run_append_item, Hw.
Qed.

(** The accounting step never raises and writes at most the accounting
    record. *)
Lemma collect_accounting_run report :
  exists report',
    collect_accounting c report = (Ret (), report') /\
    forall key, key <> "accounting" -> report' !! key = report !! key.
Proof.
  unfold collect_accounting, try_except.
  destruct (bool_decide _).
  - rewrite run_call_bind.
    destruct (get_info c "accounting/bytes-left"); [|eauto].
    rewrite run_call_bind.
    destruct (get_info c "accounting/interval-end"); [|eauto].
    eexists. split; [reflexivity|]. intros key Hkey. unfold setitem; simpl.
    now rewrite lookup_insert_ne by congruence.
  - eauto.
Qed.

End Blocks.

(** ** Which queries are fault-isolated *)

Section SuccessPath.

Variables (cfg : Config) (w : World) (c : Controller).
Variables (version uptime read written fp est hr hw : string).
Variables (up rd wr : Z).

Hypothesis Hconnect :
  from_port w (TOR_CONTROL_HOST cfg) (TOR_CONTROL_PORT cfg) = Ret c.
Hypothesis Hauth : authenticate c (password_used cfg) = Ret ().
Hypothesis Hversion : get_version c = Ret version.
Hypothesis Huptime : get_info c "uptime" = Ret uptime.
Hypothesis Hup : py_int uptime = Ret up.
Hypothesis Hread : get_info c "traffic/read" = Ret read.
Hypothesis Hrd : py_int read = Ret rd.
Hypothesis Hwritten : get_info c "traffic/written" = Ret written.
Hypothesis Hwr : py_int written = Ret wr.
Hypothesis Hhr : format_bytes (NInt rd) = Ret hr.
Hypothesis Hhw : format_bytes (NInt wr) = Ret hw.
Hypothesis Hfp : get_info c "fingerprint" = Ret fp.
Hypothesis Hest : get_info c "status/circuit-established" = Ret est.

Let count := connection_count_of (get_info_default c "orconn-status" EmptyString).
Let status := get_network_status c fp.










End SuccessPath.




(** C2: the code at a failed consensus lookup.  The flags are the
    placeholder, and the flag check still runs on it: a warning naming
    both expected flags is appended, after the connection warning. *)
Lemma placeholder_flags_are_checked :
  exists report names,
    get_relay_report script_config (world_of (Ret consensus_fails)) = Ret report /\
    report !! "flags" = Some (VList ["(unable to retrieve)"]) /\
    names ≡ₚ ["Running"; "Valid"] /\
    report !! "warnings"
      = Some (VList [warning_message 75 100; missing_flags_message names]) /\
    report !! "errors"
      = Some (VList ["Could not get network status: GETINFO ns/id failed"]).
Proof.
  destruct (outcome_inv
              (get_relay_report script_config (world_of (Ret consensus_fails)))
              (fun report =>
                 (report !! "flags", report !! "warnings", report !! "errors"))
              (Some (VList ["(unable to retrieve)"]),
               Some (VList [warning_message 75 100;
                            missing_flags_message ["Valid"; "Running"]]),
               Some (VList ["Could not get network status: GETINFO ns/id failed"])))
    as (report & Hrun & [= Hflags Hwarnings Herrors]).
  { vm_compute. reflexivity. }
  exists report, ["Valid"; "Running"].
  split; [exact Hrun|]. split; [exact Hflags|].
  split; [apply perm_swap|]. split; assumption.
Qed.

(** ** Substrings and [repr] *)

Section Substrings.

Lemma prefix_app (n b : string) : String.prefix n (n +:+ b) = true.
Proof.
  induction n as [|x n IH]; [now destruct b|].
  rewrite append_cons. simpl. now destruct (ascii_dec x x).
Qed.

Lemma prefix_elim (n s : string) :
  String.prefix n s = true -> exists b, s = n +:+ b.
Proof.
  revert n. induction s as [|y s IH]; intros [|x n]; simpl; intros H.
  - now exists EmptyString.
  - discriminate.
  - now exists (String y s).
  - destruct (ascii_dec x y) as [->|]; [|discriminate].
    destruct (IH _ H) as (b & ->). now exists b.
Qed.

Lemma contains_intro (a n b : string) : contains n (a +:+ n +:+ b) = true.
Proof.
  induction a as [|x a IH].
  - rewrite append_nil_l. destruct n.
    + now destruct b.
    + rewrite append_cons. cbn [contains]. rewrite <- append_cons.
      now rewrite prefix_app.
  - rewrite append_cons. cbn [contains]. rewrite IH. apply orb_true_r.
Qed.

Lemma contains_elim (n s : string) :
  contains n s = true -> exists a b, s = a +:+ n +:+ b.
Proof.
  induction s as [|y s IH]; cbn [contains]; rewrite orb_true_iff.
  - intros [H|H]; [|discriminate].
    destruct (prefix_elim _ _ H) as (b & ->). now exists EmptyString, b.
  - intros [H|H].
    + destruct (prefix_elim _ _ H) as (b & ->). now exists EmptyString, b.
    + destruct (IH H) as (a & b & ->). now exists (String y a), b.
Qed.

(** A substring of a part is a substring of the whole. *)
Lemma contains_inside (n pre s post : string) :
  contains n s = true -> contains n (pre +:+ s +:+ post) = true.
Proof.
  intros H. destruct (contains_elim _ _ H) as (a & b & ->).
  replace (pre +:+ (a +:+ n +:+ b) +:+ post)
    with ((pre +:+ a) +:+ n +:+ (b +:+ post))
    by now rewrite !append_assoc.
  apply contains_intro.
Qed.

Lemma join_in (sep x : string) (l : list string) :
  In x l -> exists pre post, join sep l = pre +:+ x +:+ post.
Proof.
  unfold join. induction l as [|y l IH]; [intros []|].
  intros [->|Hin].
  - destruct l as [|z l].
    + exists EmptyString, EmptyString. simpl. now rewrite append_nil_r.
    + exists EmptyString, (sep +:+ String.concat sep (z :: l)). reflexivity.
  - destruct (IH Hin) as (pre & post & Heq). destruct l as [|z l]; [destruct Hin|].
    exists (y +:+ sep +:+ pre), post.
    change (String.concat sep (y :: z :: l))
      with (y +:+ sep +:+ String.concat sep (z :: l)).
    rewrite Heq. now rewrite !append_assoc.
Qed.

Lemma repr_body_app (q : ascii) (a b : string) :
  repr_body q (a +:+ b) = repr_body q a +:+ repr_body q b.
Proof.
  induction a as [|x a IH]; [reflexivity|].
  rewrite append_cons. simpl. now rewrite IH, append_assoc.
Qed.

Lemma repr_quote_cases (s : string) :
  repr_quote s = squote \/ repr_quote s = dquote.
Proof. unfold repr_quote. destruct (_ && _); auto. Qed.

(** [repr] keeps a text of letters and spaces as it is. *)
Lemma contains_repr_str (n s : string) :
  repr_body squote n = n -> repr_body dquote n = n ->
  contains n s = true -> contains n (repr_str s) = true.
Proof.
  intros Hs Hd H. destruct (contains_elim _ _ H) as (a & b & Heq).
  unfold repr_str. set (q := repr_quote s).
  assert (Hq : repr_body q n = n)
    by (destruct (repr_quote_cases s) as [E|E]; unfold q; now rewrite E).
  rewrite Heq, !repr_body_app, Hq.
  change (String q ((repr_body q a +:+ n +:+ repr_body q b) +:+ str1 q))
    with (str1 q +:+ (repr_body q a +:+ n +:+ repr_body q b) +:+ str1 q).
  apply contains_inside, contains_intro.
Qed.

Lemma contains_repr_list (n x : string) (l : list string) :
  repr_body squote n = n -> repr_body dquote n = n ->
  In x l -> contains n x = true -> contains n (repr_list l) = true.
Proof.
  intros Hs Hd Hin H. unfold repr_list.
  destruct (join_in ", " (repr_str x) (map repr_str l)) as (pre & post & ->).
  { now apply in_map. }
  apply contains_inside, contains_inside, contains_repr_str; assumption.
Qed.

End Substrings.

(** ** The formatter stops after a connection failure *)

(** C4.  For every report whose error list holds a string with the
    failed-connection text, the formatted document is the header, the
    alerts and the errors section, and ends there: after the ERRORS
    heading come its rule, the error lines and one empty line, none of
    which starts a STATUS, RELAY IDENTITY, CONSENSUS FLAGS or TRAFFIC
    section or the footer. *)
Theorem connection_failure_truncates
    (report : gmap string value) (generated : datetime)
    (warnings errors : list string) (e : string) :
  report !! "generated" = Some (VDatetime generated) ->
  report !! "warnings" = Some (VList warnings) ->
  report !! "errors" = Some (VList errors) ->
  In e errors ->
  contains "Failed to connect" e = true ->
  exists header alerts,
    header_lines report = Ret header /\
    alert_lines report = Ret alerts /\
    report_lines report = Ret (header ++ alerts ++ errors_section errors) /\
    format_report_text report
      = Ret (join (str1 newline) (header ++ alerts ++ errors_section errors)) /\
    (forall line heading,
       In line (tl (errors_section errors)) -> In heading later_headings ->
       String.prefix heading line = false).
Proof.
  intros Hg Hw He Hin Hsub.
  assert (Hstop : contains "Failed to connect" (repr_list errors) = true)
    by (eapply contains_repr_list; [reflexivity|reflexivity|exact Hin|exact Hsub]).
  assert (Hne : errors <> []) by (intros ->; destruct Hin).
  assert (Hlines :
    exists header alerts,
      header_lines report = Ret header /\
      alert_lines report = Ret alerts /\
      report_lines report = Ret (header ++ alerts ++ errors_section errors)).
  { unfold report_lines, header_lines, alert_lines, error_lines,
      stops_after_errors, getitem, get_or.
    rewrite Hg, Hw, He. cbn [mbind outcome_bind obind iter_strs truthy py_str].
    rewrite Hstop.
    destruct errors as [|e0 errors']; [congruence|].
    destruct warnings as [|w0 warnings']; cbn; eauto. }
  destruct Hlines as (header & alerts & Hh & Ha & Hl).
  exists header, alerts. repeat split; try assumption.
  - unfold format_report_text. now rewrite Hl.
  - intros line heading Hline Hhead.
    unfold errors_section in Hline. cbn [tl app] in Hline.
    destruct Hline as [<-|Hline].
    + unfold later_headings in Hhead. cbn [In] in Hhead.
      repeat destruct Hhead as [<-|Hhead]; try reflexivity. destruct Hhead.
    + apply in_app_or in Hline. destruct Hline as [Hline|[<-|[]]].
      * apply in_map_iff in Hline. destruct Hline as (err & <- & _).
        unfold later_headings in Hhead. cbn [In] in Hhead.
        repeat destruct Hhead as [<-|Hhead]; try reflexivity. destruct Hhead.
      * unfold later_headings in Hhead. cbn [In] in Hhead.
        repeat destruct Hhead as [<-|Hhead]; try reflexivity. destruct Hhead.
Qed.

(** The statement for the report of a refused connection. *)
Lemma connection_failure_truncates_witness :
  format_report_text failed_report
  = Ret (join (str1 newline)
           ([rule "=" 60; "  TOR RELAY REPORT: Unknown";
             "  Generated: 2024-03-01 08:00:00"; "  Host: raspberrypi";
             rule "=" 60; EmptyString]
            ++ errors_section
                 [connect_failure "[Errno 111] Connection refused"])).
Proof.
  destruct (connection_failure_truncates failed_report
              (Datetime 2024 3 1 8 0 0 0) []
              [connect_failure "[Errno 111] Connection refused"]
              (connect_failure "[Errno 111] Connection refused")
              eq_refl eq_refl eq_refl (or_introl eq_refl) eq_refl)
    as (header & alerts & Hh & Ha & _ & Hfmt & _).
  rewrite Hfmt.
  assert (header = [rule "=" 60; "  TOR RELAY REPORT: Unknown";
                    "  Generated: 2024-03-01 08:00:00"; "  Host: raspberrypi";
                    rule "=" 60; EmptyString]) as ->
    by (vm_compute in Hh; injection Hh as <-; reflexivity).
  assert (alerts = []) as -> by (vm_compute in Ha; injection Ha as <-; reflexivity).
  reflexivity.
Defined.

(** ** The traffic section *)

Section Traffic.

(** Formatting a [float] never raises. *)
Lemma format_bytes_float (x : float) :
  exists s, format_bytes (NFloat x) = Ret s.
Proof.
  unfold format_bytes, format_bytes_loop, num_abs_lt_1024, num_div_1024,
    num_format_2f.
  cbn [mbind outcome_bind obind].
  repeat match goal with
         | |- context [if float_abs_lt_1024 ?y then _ else _] =>
             destruct (float_abs_lt_1024 y); [eauto|]
         end.
  eauto.
Qed.

Variable report : gmap string value.
Variables (generated : datetime) (uptime read written : Z).
Hypothesis Hgenerated : report !! "generated" = Some (VDatetime generated).
Hypothesis Huptime : get_or report "uptime_seconds" (VInt 0) = VInt uptime.
Hypothesis Hread : get_or report "bytes_read" (VInt 0) = VInt read.
Hypothesis Hwritten : get_or report "bytes_written" (VInt 0) = VInt written.

(** The section, from the outcomes of the operations it performs. *)
Lemma traffic_lines_run :
  traffic_lines report =
    if 0 <? uptime then
      restart ← sub_seconds generated uptime;
      avg_read ← int_truediv read uptime;
      avg_write ← int_truediv written uptime;
      r ← format_bytes (NFloat avg_read);
      w ← format_bytes (NFloat avg_write);
      Ret (["TRAFFIC SINCE RESTART ("
              +:+ strftime restart "%m/%d/%Y %H:%M" +:+ ")"]
           ++ traffic_totals report
           ++ ["  Avg Read:      " +:+ r +:+ "/s";
               "  Avg Write:     " +:+ w +:+ "/s"]
           ++ [EmptyString])
    else
      Ret (["TRAFFIC SINCE RESTART"] ++ traffic_totals report
             ++ [EmptyString]).
Proof.
  unfold traffic_lines, average, positive, getitem.
  rewrite Huptime, Hread, Hwritten, Hgenerated.
  unfold mbind, outcome_bind. cbn [as_int obind].
  destruct (0 <? uptime); [|reflexivity].
  destruct (sub_seconds generated uptime); [|reflexivity].
  cbn [obind].
  destruct (int_truediv read uptime) as [avg_read|]; [|reflexivity].
  cbn [obind].
  destruct (int_truediv written uptime) as [avg_write|]; [|reflexivity].
  cbn [obind].
  destruct (format_bytes (NFloat avg_read)); [|reflexivity].
  cbn [obind].
  destruct (format_bytes (NFloat avg_write)); reflexivity.
Qed.

End Traffic.

(** C8.  In the traffic section the restart timestamp (the generation
    time minus the uptime in seconds) is in the heading exactly when the
    uptime is positive, and the two average rates, each the byte counter
    divided by the uptime and rendered by [format_bytes] with the suffix
    /s, are present exactly when the uptime is positive.  With an uptime
    of zero or less the section is rendered without any division; with a
    positive uptime it is rendered from the restart time and the two
    quotients. *)
Theorem traffic_section
    (report : gmap string value) (generated : datetime)
    (uptime read written : Z) :
  report !! "generated" = Some (VDatetime generated) ->
  get_or report "uptime_seconds" (VInt 0) = VInt uptime ->
  get_or report "bytes_read" (VInt 0) = VInt read ->
  get_or report "bytes_written" (VInt 0) = VInt written ->
  (uptime <= 0 ->
   traffic_lines report
   = Ret (["TRAFFIC SINCE RESTART"] ++ traffic_totals report ++ [EmptyString])) /\
  (0 < uptime ->
   forall restart avg_read avg_write,
     sub_seconds generated uptime = Ret restart ->
     int_truediv read uptime = Ret avg_read ->
     int_truediv written uptime = Ret avg_write ->
     exists r w,
       format_bytes (NFloat avg_read) = Ret r /\
       format_bytes (NFloat avg_write) = Ret w /\
       traffic_lines report
       = Ret (["TRAFFIC SINCE RESTART ("
                 +:+ strftime restart "%m/%d/%Y %H:%M" +:+ ")"]
              ++ traffic_totals report
              ++ ["  Avg Read:      " +:+ r +:+ "/s";
                  "  Avg Write:     " +:+ w +:+ "/s"]
              ++ [EmptyString])) /\
  (forall lines,
     traffic_lines report = Ret lines ->
     (head lines <> Some "TRAFFIC SINCE RESTART" <-> 0 < uptime) /\
     (length lines = 7%nat <-> 0 < uptime) /\
     (length lines = 5%nat <-> uptime <= 0)).
Proof.
  intros Hg Hu Hr Hw.
  rewrite (traffic_lines_run report generated uptime read written Hg Hu Hr Hw).
  split; [|split].
  - intros H. apply Z.ltb_ge in H. now rewrite H.
  - intros H restart avg_read avg_write Hs Har Haw.
    apply Z.ltb_lt in H. rewrite H, Hs, Har, Haw.
    unfold mbind, outcome_bind. cbn [obind].
    destruct (format_bytes_float avg_read) as (r & Hfr).
    destruct (format_bytes_float avg_write) as (w & Hfw).
    exists r, w. split; [exact Hfr|]. split; [exact Hfw|].
    rewrite Hfr. cbn [obind]. now rewrite Hfw.
  - intros lines. destruct (0 <? uptime) eqn:Hup.
    + apply Z.ltb_lt in Hup.
      destruct (sub_seconds generated uptime); [|discriminate].
      destruct (int_truediv read uptime) as [ar|]; [|discriminate].
      destruct (int_truediv written uptime) as [aw|]; [|discriminate].
      unfold mbind, outcome_bind. cbn [obind].
      destruct (format_bytes_float ar) as (r & ->). cbn [obind].
      destruct (format_bytes_float aw) as (w & ->). cbn [obind].
      intros [= <-].
      cbn [app head length]. repeat split; intros; try lia; try discriminate.
    + apply Z.ltb_ge in Hup. intros [= <-].
      cbn [app head length traffic_totals]. repeat split; intros; try lia;
        try discriminate; try congruence.
Qed.

(** The statement for an uptime of 3661 seconds. *)
Lemma traffic_section_witness :
  traffic_lines traffic_report
  = Ret ["TRAFFIC SINCE RESTART (03/01/2024 06:58)"; rule "-" 40;
         "  Read:          N/A"; "  Written:       N/A";
         "  Avg Read:      32.93 KB/s"; "  Avg Write:     263.45 KB/s";
         EmptyString].
Proof.
  destruct (traffic_section traffic_report (Datetime 2024 3 1 8 0 0 0)
              3661 123456789 987654321 eq_refl eq_refl eq_refl eq_refl)
    as (_ & Hpos & _).
  destruct (Hpos ltac:(lia) _ _ _ eq_refl eq_refl eq_refl)
    as (r & w & Hr & Hw & Hlines).
  rewrite Hlines.
  assert (r = "32.93 KB") as -> by (vm_compute in Hr; injection Hr as <-; reflexivity).
  assert (w = "263.45 KB") as -> by (vm_compute in Hw; injection Hw as <-; reflexivity).
  reflexivity.
Defined.

(** ** Byte counts: the decimal rendering *)

Section Decimals.

Lemma has_char_app (c : ascii) (a b : string) :
  has_char c (a +:+ b) = has_char c a || has_char c b.
Proof.
  induction a as [|x a IH]; [reflexivity|].
  rewrite append_cons. simpl. now rewrite IH, orb_assoc.
Qed.

Lemma pretty_N_char_no_point (d : N) :
  Ascii.eqb (pretty_N_char d) "." = false.
Proof. unfold pretty_N_char. now repeat case_match. Qed.

(** Printing digits in front of a text adds no decimal point. *)
Lemma pretty_N_go_no_point (x : N) (s : string) :
  has_char "." (pretty_N_go x s) = has_char "." s.
Proof.
  revert s. induction (N.lt_wf_0 x) as [x _ IH]. intros s.
  destruct (N.eq_0_gt_0_cases x) as [->|Hpos].
  - now rewrite pretty_N_go_0.
  - rewrite pretty_N_go_step by exact Hpos.
    rewrite IH by (apply N.div_lt; [exact Hpos | reflexivity]).
    simpl. now rewrite pretty_N_char_no_point.
Qed.

Lemma pretty_N_no_point (x : N) : has_char "." (pretty x) = false.
Proof.
  unfold pretty, pretty_N. case_decide; [reflexivity|].
  apply pretty_N_go_no_point.
Qed.

Lemma str_int_no_point (n : Z) : has_char "." (str_int n) = false.
Proof.
  unfold str_int, pretty, pretty_Z. destruct n as [|p|p].
  - reflexivity.
  - apply pretty_N_no_point.
  - rewrite has_char_app. simpl. apply (pretty_N_no_point (N.pos p)).
Qed.

Lemma digit_char_is_digit (d : Z) :
  0 <= d <= 9 -> is_digit (digit_char d) = true.
Proof.
  intros H.
  assert (d = 0 \/ d = 1 \/ d = 2 \/ d = 3 \/ d = 4 \/ d = 5 \/ d = 6 \/
          d = 7 \/ d = 8 \/ d = 9) as Hd by lia.
  repeat destruct Hd as [->|Hd]; try reflexivity. now subst.
Qed.

(** The [.2f] rendering has exactly two decimals. *)
Lemma format_2f_two_decimals (x : float) : two_decimals (format_2f x).
Proof.
  unfold two_decimals, format_2f.
  set (num := if 0 <=? fexp x then _ else _).
  set (den := if 0 <=? fexp x then _ else _).
  set (n := half_even _ _ _).
  exists ((if fneg x then "-" else EmptyString) +:+ str_int (n / 100)),
    (digit_char (n mod 100 / 10)), (digit_char (n mod 10)).
  split; [now rewrite !append_assoc|].
  split.
  - rewrite has_char_app, str_int_no_point. now destruct (fneg x).
  - split; apply digit_char_is_digit.
    + pose proof (Z.mod_pos_bound n 100 ltac:(lia)) as Hm.
      split; [apply Z.div_pos; lia|].
      apply Z.lt_succ_r. apply Z.div_lt_upper_bound; lia.
    + pose proof (Z.mod_pos_bound n 10 ltac:(lia)). lia.
Qed.

End Decimals.

(** ** Byte counts: conversion to [float] *)

Section FloatConversion.

Lemma bits_small (m : Z) : 0 < m < 2 ^ 53 -> Z.log2 m + 1 <= 53.
Proof.
  intros [Hpos Hlt]. apply Z.log2_lt_pow2 in Hlt; [lia | exact Hpos].
Qed.

(** A number that fits 53 bits and the exponent range is not rounded. *)
Lemma round_dyadic_exact (neg : bool) (m e : Z) :
  0 < m < 2 ^ 53 -> -1074 <= e -> round_dyadic neg m e = Float neg m e.
Proof.
  intros Hm He. unfold round_dyadic.
  destruct (Z.eqb_spec m 0) as [->|_]; [lia|].
  pose proof (bits_small m Hm) as Hbits.
  cbv zeta.
  destruct (Z.leb_spec (Z.max (e + (Z.log2 m + 1) - 53) (-1074)) e) as [_|H];
    [reflexivity | lia].
Qed.

Lemma float_of_int_small (n : Z) :
  Z.abs n < 2 ^ 53 -> float_of_int n = Ret (Float (n <? 0) (Z.abs n) 0).
Proof.
  intros H. unfold float_of_int.
  destruct (Z.eq_dec (Z.abs n) 0) as [E|E].
  - rewrite E. reflexivity.
  - rewrite round_dyadic_exact by lia. reflexivity.
Qed.

(** Above 53 bits the conversion rounds to a mantissa of exactly 53
    bits and a positive exponent; the result is finite as long as the
    magnitude stays below [float_int_bound]. *)
Lemma round_dyadic_big (neg : bool) (m : Z) :
  2 ^ 53 <= m ->
  exists q e,
    round_dyadic neg m 0 = Float neg q e /\
    2 ^ 52 <= q < 2 ^ 53 /\ 1 <= e /\
    (m < float_int_bound -> q * 2 ^ e < 2 ^ 1024).
Proof.
  intros Hm.
  assert (Hpos : 0 < m) by lia.
  pose proof (Z.log2_spec m Hpos) as [Hlo Hhi].
  assert (Hlog : 53 <= Z.log2 m) by (apply Z.log2_le_pow2; lia).
  set (s := Z.log2 m - 52).
  assert (Hs : 1 <= s) by (unfold s; lia).
  assert (Hden : 0 < 2 ^ s) by (apply Z.pow_pos_nonneg; lia).
  assert (Hlo' : 2 ^ 52 * 2 ^ s <= m).
  { rewrite <- Z.pow_add_r by lia. now replace (52 + s) with (Z.log2 m) by (unfold s; lia). }
  assert (Hhi' : m < 2 ^ 53 * 2 ^ s).
  { rewrite <- Z.pow_add_r by lia.
    now replace (53 + s) with (Z.succ (Z.log2 m)) by (unfold s; lia). }
  assert (Hq0 : 2 ^ 52 <= m / 2 ^ s < 2 ^ 53).
  { split.
    - apply Z.div_le_lower_bound; lia.
    - apply Z.div_lt_upper_bound; lia. }
  pose proof (Z.div_mod m (2 ^ s) ltac:(lia)) as Hdm.
  pose proof (Z.mod_pos_bound m (2 ^ s) Hden) as Hr.
  unfold round_dyadic.
  destruct (Z.eqb_spec m 0) as [->|_]; [lia|].
  cbv zeta.
  replace (0 + (Z.log2 m + 1) - 53) with s by (unfold s; lia).
  rewrite Z.max_l by lia.
  destruct (Z.leb_spec s 0) as [H|_]; [lia|].
  rewrite Z.sub_0_r.
  set (q := half_even (m / 2 ^ s) (m mod 2 ^ s) (2 ^ s)).
  assert (Hq : q = m / 2 ^ s \/
               (q = m / 2 ^ s + 1 /\ 2 ^ s <= 2 * (m mod 2 ^ s))).
  { unfold q, half_even.
    destruct (Z.ltb_spec (2 ^ s) (2 * (m mod 2 ^ s))); simpl; [right; lia|].
    destruct (Z.eqb_spec (2 * (m mod 2 ^ s)) (2 ^ s)); simpl; [|now left].
    destruct (Z.odd (m / 2 ^ s)); [right; lia | now left]. }
  assert (Hslog : m < 2 ^ 1024 -> s <= 971).
  { intros Hlt. assert (Z.log2 m < 1024) by (apply Z.log2_lt_pow2; lia).
    unfold s; lia. }
  destruct (Z.eqb_spec q (2 ^ 53)) as [Hq53|Hq53].
  - exists (2 ^ 52), (s + 1). split; [reflexivity|].
    split; [lia|]. split; [lia|].
    intros Hbound. unfold float_int_bound in Hbound.
    assert (Hs971 : s <= 971) by (apply Hslog; lia).
    destruct (Z.eq_dec s 971) as [E|E].
    + exfalso. rewrite E in *.
      destruct Hq as [Hq|[Hq Hround]]; [lia|].
      assert (m / 2 ^ 971 = 2 ^ 53 - 1) as Hq0' by lia.
      rewrite Hq0' in Hdm.
      change (2 ^ 971) with (2 * 2 ^ 970) in Hround, Hdm.
      lia.
    + rewrite <- Z.pow_add_r by lia.
      apply Z.pow_lt_mono_r; lia.
  - exists q, s. split; [reflexivity|].
    split; [lia|]. split; [lia|].
    intros Hbound. unfold float_int_bound in Hbound.
    assert (Hs971 : s <= 971) by (apply Hslog; lia).
    apply Z.lt_le_trans with (2 ^ 53 * 2 ^ s).
    + apply Z.mul_lt_mono_pos_r; lia.
    + rewrite <- Z.pow_add_r by lia. apply Z.pow_le_mono_r; lia.
Qed.

Lemma float_of_int_big (n : Z) :
  2 ^ 53 <= Z.abs n < float_int_bound ->
  exists q e,
    float_of_int n = Ret (Float (n <? 0) q e) /\
    2 ^ 52 <= q < 2 ^ 53 /\ 1 <= e.
Proof.
  intros [Hlo Hhi].
  destruct (round_dyadic_big (n <? 0) (Z.abs n) Hlo)
    as (q & e & Hround & Hq & He & Hfin).
  exists q, e. unfold float_of_int. rewrite Hround.
  unfold float_overflow; cbn [fexp fmant].
  specialize (Hfin Hhi).
  destruct (Z.leb_spec (2 ^ 1024) (q * 2 ^ e)); [lia|].
  rewrite andb_false_r. auto.
Qed.

End FloatConversion.

(** ** Byte counts: the unit loop *)

(** Evaluate the bounds [1024 * 1024^k] of the five units. *)
Ltac eval_unit_bounds :=
  change (1024 * 1024 ^ Z.of_nat 0) with 1024 in *;
  change (1024 * 1024 ^ Z.of_nat 1) with 1048576 in *;
  change (1024 * 1024 ^ Z.of_nat 2) with 1073741824 in *;
  change (1024 * 1024 ^ Z.of_nat 3) with 1099511627776 in *;
  change (1024 * 1024 ^ Z.of_nat 4) with 1125899906842624 in *.

Section UnitLoop.

Variables (neg : bool) (m e : Z).
Hypothesis Hm : 0 < m < 2 ^ 53.
Hypothesis He : 0 <= e.

(** Dividing by 1024.0 is exact in the range of the loop. *)
Lemma float_div_1024_scaled (k : nat) :
  (k < 5)%nat ->
  float_div_1024 (scaled (Float neg m e) k) = scaled (Float neg m e) (S k).
Proof.
  intros Hk. unfold float_div_1024, scaled; cbn [fneg fmant fexp].
  rewrite round_dyadic_exact by lia. f_equal. lia.
Qed.

(** On an integer below [2^53] the test of the loop is the test of the
    specification. *)
Lemma float_abs_lt_1024_scaled (k : nat) :
  e = 0 ->
  float_abs_lt_1024 (scaled (Float neg m e) k)
  = (m <? 1024 * 1024 ^ Z.of_nat k).
Proof.
  intros ->. unfold float_abs_lt_1024, scaled; cbn [fneg fmant fexp].
  destruct k as [|k].
  - cbn. now rewrite Z.mul_1_r.
  - destruct (Z.leb_spec 0 (0 - 10 * Z.of_nat (S k))) as [H|_]; [lia|].
    replace (- (0 - 10 * Z.of_nat (S k))) with (10 * Z.of_nat (S k)) by lia.
    rewrite Z.pow_mul_r by lia. reflexivity.
Qed.

(** A number of 53 bits and more stays above 1024 through the loop. *)
Lemma float_abs_lt_1024_big (k : nat) :
  2 ^ 52 <= m -> 1 <= e -> (k < 5)%nat ->
  float_abs_lt_1024 (scaled (Float neg m e) k) = false.
Proof.
  intros Hbig He1 Hk. unfold float_abs_lt_1024, scaled; cbn [fneg fmant fexp].
  destruct (Z.leb_spec 0 (e - 10 * Z.of_nat k)) as [H|H].
  - apply Z.ltb_ge.
    assert (1 <= 2 ^ (e - 10 * Z.of_nat k))
      by (apply (Z.pow_le_mono_r 2 0); lia).
    nia.
  - apply Z.ltb_ge.
    assert (2 ^ (- (e - 10 * Z.of_nat k)) <= 2 ^ 39)
      by (apply Z.pow_le_mono_r; lia).
    change (2 ^ 39) with 549755813888 in *.
    change (2 ^ 52) with 4503599627370496 in *.
    lia.
Qed.

End UnitLoop.

Section FormatBytes.

Lemma unit_index_bounds (n : Z) :
  (unit_index n <= 5)%nat /\
  ((unit_index n < 5)%nat ->
   Z.abs n < 1024 * 1024 ^ Z.of_nat (unit_index n)) /\
  (forall j, (j < unit_index n)%nat -> 1024 * 1024 ^ Z.of_nat j <= Z.abs n).
Proof.
  unfold unit_index, find_unit.
  repeat match goal with
         | |- context [if ?a <? ?b then _ else _] =>
             destruct (Z.ltb_spec a b)
         end;
    (split; [lia|]); (split; [intros; first [assumption | lia]|]);
    intros j Hj;
    repeat (destruct j as [|j]; [assumption|]); lia.
Qed.

Lemma unit_index_big (n : Z) : 2 ^ 53 <= Z.abs n -> unit_index n = 5%nat.
Proof.
  intros H. change (2 ^ 53) with 9007199254740992 in H.
  unfold unit_index, find_unit. eval_unit_bounds.
  repeat match goal with
         | |- context [if ?a <? ?b then _ else _] =>
             destruct (Z.ltb_spec a b); [lia|]
         end.
  reflexivity.
Qed.

(** Below [2^53] the conversion is exact and the loop stops at the
    unit the specification selects. *)
Lemma format_bytes_small (n : Z) :
  Z.abs n < 2 ^ 53 ->
  format_bytes (NInt n)
  = Ret (format_2f (scaled (Float (n <? 0) (Z.abs n) 0) (unit_index n))
         +:+ " " +:+ unit_name (unit_index n)).
Proof.
  intros Hsmall.
  unfold format_bytes, unit_index.
  cbn [format_bytes_loop find_unit num_abs_lt_1024 num_div_1024
         num_format_2f].
  rewrite (float_of_int_small n Hsmall).
  unfold mbind, outcome_bind. cbn [obind].
  change (1024 * 1024 ^ Z.of_nat 0) with 1024.
  destruct (Z.ltb_spec (Z.abs n) 1024) as [H0|H0]; [reflexivity|].
  assert (Hm : 0 < Z.abs n < 2 ^ 53) by lia.
  set (x := Float (n <? 0) (Z.abs n) 0).
  assert (float_div_1024 x = scaled x 1) as ->
    by (apply (float_div_1024_scaled _ _ 0 Hm (Z.le_refl 0) 0); lia).
  unfold x.
  rewrite !float_div_1024_scaled by (exact Hm || lia).
  rewrite !float_abs_lt_1024_scaled by (exact Hm || reflexivity).
  repeat match goal with
         | |- context [if ?a <? ?b then _ else _] =>
             destruct (a <? b); [reflexivity|]
         end.
  reflexivity.
Qed.

(** From [2^53] on the value is rounded to 53 bits and rendered in
    PB. *)
Lemma format_bytes_big (n : Z) (q e : Z) :
  2 ^ 53 <= Z.abs n ->
  float_of_int n = Ret (Float (n <? 0) q e) ->
  2 ^ 52 <= q < 2 ^ 53 -> 1 <= e ->
  format_bytes (NInt n)
  = Ret (format_2f (scaled (Float (n <? 0) q e) 5) +:+ " PB").
Proof.
  intros Hbig Hconv Hq He.
  unfold format_bytes.
  cbn [format_bytes_loop num_abs_lt_1024 num_div_1024 num_format_2f].
  rewrite Hconv. unfold mbind, outcome_bind. cbn [obind].
  change (2 ^ 53) with 9007199254740992 in Hbig.
  destruct (Z.ltb_spec (Z.abs n) 1024) as [H0|H0]; [lia|].
  assert (Hm : 0 < q < 2 ^ 53)
    by (change (2 ^ 52) with 4503599627370496 in Hq; lia).
  set (x := Float (n <? 0) q e).
  assert (float_div_1024 x = scaled x 1) as ->.
  { unfold x, float_div_1024, scaled; cbn [fneg fmant fexp].
    rewrite round_dyadic_exact by lia. reflexivity. }
  unfold x.
  rewrite !float_div_1024_scaled by (exact Hm || lia).
  rewrite !float_abs_lt_1024_big by (exact Hm || lia).
  reflexivity.
Qed.

End FormatBytes.

(** C7, as amended.  For every integer byte count whose magnitude is
    below [2^1024 - 2^970] (the integers [float] accepts),
    [format_bytes] renders the value, converted to the nearest [float]
    and divided by the power of 1024 of its unit, with exactly two
    decimals, in the smallest unit of B, KB, MB, GB, TB for which the
    scaled magnitude is below 1024, and in PB when there is none.  Below
    [2^53] the conversion is exact. *)
Theorem format_bytes_unit (n : Z) :
  Z.abs n < float_int_bound ->
  exists x,
    float_of_int n = Ret x /\
    (Z.abs n < 2 ^ 53 -> x = Float (n <? 0) (Z.abs n) 0) /\
    format_bytes (NInt n)
    = Ret (format_2f (scaled x (unit_index n)) +:+ " "
           +:+ unit_name (unit_index n)) /\
    two_decimals (format_2f (scaled x (unit_index n))) /\
    (unit_index n <= 5)%nat /\
    ((unit_index n < 5)%nat ->
     Z.abs n < 1024 * 1024 ^ Z.of_nat (unit_index n)) /\
    (forall j, (j < unit_index n)%nat -> 1024 * 1024 ^ Z.of_nat j <= Z.abs n).
Proof.
  intros Hbound.
  destruct (Z.lt_ge_cases (Z.abs n) (2 ^ 53)) as [Hsmall|Hbig].
  - exists (Float (n <? 0) (Z.abs n) 0).
    split; [apply float_of_int_small, Hsmall|].
    split; [reflexivity|].
    split; [apply format_bytes_small, Hsmall|].
    split; [apply format_2f_two_decimals|].
    apply unit_index_bounds.
  - destruct (float_of_int_big n (conj Hbig Hbound)) as (q & e & Hconv & Hq & He).
    exists (Float (n <? 0) q e).
    split; [exact Hconv|].
    split; [intros H; lia|].
    split.
    { rewrite (unit_index_big n Hbig).
      apply (format_bytes_big n q e Hbig Hconv Hq He). }
    split; [apply format_2f_two_decimals|].
    apply unit_index_bounds.
Qed.

(** The statement for 123456789 bytes, rendered in MB. *)
Lemma format_bytes_unit_witness :
  format_bytes (NInt 123456789) = Ret "117.74 MB".
Proof.
  destruct (format_bytes_unit 123456789 eq_refl)
    as (x & _ & Hexact & Hfmt & _).
  rewrite Hfmt, (Hexact eq_refl). vm_compute. reflexivity.
Defined.

(** C7 as stated fails: the byte count [2^1024] is not rendered, the
    division by 1024.0 cannot convert it and [OverflowError] leaves
    [format_bytes]. *)
Lemma format_bytes_overflow :
  format_bytes (NInt (2 ^ 1024)) = Raise "int too large to convert to float" /\
  ~ exists s, format_bytes (NInt (2 ^ 1024)) = Ret s.
Proof.
  assert (H : format_bytes (NInt (2 ^ 1024))
              = Raise "int too large to convert to float")
    by (vm_compute; reflexivity).
  split; [exact H|]. intros (s & Hs). rewrite H in Hs. discriminate.
Qed.

(** ** The dispatcher *)

Section IOSteps.

Implicit Types fx : Effects.

Lemma io_bind {A B} (c : IO A) (f : A -> IO B) fx :
  (c ≫= f) fx =
    match c fx with
    | (Ret a, fx') => f a fx'
    | (Raise e, fx') => (Raise e, fx')
    end.
Proof. reflexivity. Qed.

Lemma io_pure_bind {A B} (x : outcome A) (f : A -> IO B) fx :
  (pure_call x ≫= f) fx =
    match x with
    | Ret a => f a fx
    | Raise e => (Raise e, fx)
    end.
Proof. rewrite io_bind. unfold pure_call. now destruct x. Qed.

Lemma io_smtp_bind {B} (mail : Mail) (c : smtp_call) (f : unit -> IO B) fx :
  (smtp mail c ≫= f) fx =
    let fx' := {| printed := printed fx; smtp_calls := smtp_calls fx ++ [c] |} in
    match smtp_reply mail c with
    | Ret a => f a fx'
    | Raise e => (Raise e, fx')
    end.
Proof. rewrite io_bind. unfold smtp. now destruct (smtp_reply mail c). Qed.

End IOSteps.

Section SendEmail.

Variables (mc : MailConfig) (mail : Mail) (subject body : string).

Let ok (c : smtp_call) : Prop := smtp_reply mail c = Ret ().

Lemma add_calls_nil (fx : Effects) : add_calls fx [] = fx.
Proof. destruct fx. unfold add_calls; simpl. now rewrite app_nil_r. Qed.

Lemma add_calls_app (fx : Effects) (l1 l2 : list smtp_call) :
  add_calls (add_calls fx l1) l2 = add_calls fx (l1 ++ l2).
Proof. unfold add_calls; simpl. now rewrite app_assoc. Qed.

(** A list of calls goes through, or stops at the first that raises. *)
Lemma smtp_all_run (calls : list smtp_call) (fx : Effects) :
  (Forall ok calls /\ smtp_all mail calls fx = (Ret (), add_calls fx calls)) \/
  (exists earlier c later e,
     calls = earlier ++ c :: later /\ Forall ok earlier /\
     smtp_reply mail c = Raise e /\
     smtp_all mail calls fx = (Raise e, add_calls fx (earlier ++ [c]))).
Proof.
  revert fx. induction calls as [|c calls IH]; intros fx.
  - left. split; [constructor|]. now rewrite add_calls_nil.
  - cbn [smtp_all]. rewrite io_smtp_bind. cbv zeta.
    fold (add_calls fx [c]).
    destruct (smtp_reply mail c) as [[]|e] eqn:Hc.
    + destruct (IH (add_calls fx [c]))
        as [[Hok Hrun]|(earlier & c' & later & e & -> & Hok & Hc' & Hrun)].
      * left. split; [now constructor|].
        now rewrite Hrun, add_calls_app.
      * right. exists (c :: earlier), c', later, e.
        split; [reflexivity|]. split; [now constructor|]. split; [exact Hc'|].
        now rewrite Hrun, add_calls_app.
    + right. exists [], c, calls, e. auto.
Qed.

(** The body of the [try], as two lists of calls around the rendering of
    the message. *)
Lemma send_email_unfold (fx : Effects) :
  send_email mc mail subject body fx =
    try_except_io
      (smtp_all mail (login_calls mc);;
       text ← pure_call (as_string mail (message_of mc subject body));
       smtp_all mail [Sendmail (EMAIL_FROM mc) (EMAIL_TO mc) text; Quit];;
       mret true)
      (fun e => print ("Failed to send email: " +:+ e);; mret false) fx.
Proof.
  unfold send_email, try_except_io, login_calls.
  fold (message_of mc subject body).
  destruct (SMTP_USE_TLS mc);
    destruct (as_string mail (message_of mc subject body)) as [text|];
    repeat (cbv [mbind IO_bind mret IO_ret smtp pure_call smtp_all app];
            match goal with
            | |- context [match smtp_reply mail ?c with _ => _ end] =>
                destruct (smtp_reply mail c) as [[]|]
            end);
    reflexivity.
Qed.

Lemma session_calls_split (text : string) :
  session_calls mc text
  = login_calls mc ++ [Sendmail (EMAIL_FROM mc) (EMAIL_TO mc) text; Quit].
Proof. unfold session_calls, login_calls. now rewrite <- app_assoc. Qed.

Lemma handler_run (e : string) (fx : Effects) :
  (print ("Failed to send email: " +:+ e);; mret false) fx
  = (Ret false, add_prints fx ["Failed to send email: " +:+ e]).
Proof. reflexivity. Qed.

(** What [send_email] does, case by case: it returns, and either the
    whole session went through, or the first failure ended it. *)
Lemma send_email_outcome (fx : Effects) :
  exists sent fx' made,
    send_email mc mail subject body fx = (Ret sent, fx') /\
    calls_added fx fx' made /\
    if sent then
      prints_added fx fx' [] /\
      exists text,
        as_string mail (message_of mc subject body) = Ret text /\
        made = session_calls mc text /\ Forall ok made
    else
      exists e,
        prints_added fx fx' ["Failed to send email: " +:+ e] /\
        ((exists earlier c,
            made = earlier ++ [c] /\ smtp_reply mail c = Raise e /\
            Forall ok earlier /\
            (made `prefix_of` login_calls mc \/
             exists text,
               as_string mail (message_of mc subject body) = Ret text /\
               made `prefix_of` session_calls mc text)) \/
         (as_string mail (message_of mc subject body) = Raise e /\
          Forall ok made /\ made = login_calls mc)).
Proof.
  rewrite send_email_unfold. unfold try_except_io. rewrite io_bind.
  destruct (smtp_all_run (login_calls mc) fx)
    as [[Hok Hrun]|(earlier & c & later & e & Heq & Hok & Hc & Hrun)];
    rewrite Hrun.
  - rewrite io_pure_bind.
    destruct (as_string mail (message_of mc subject body)) as [text|e] eqn:Hs.
    + rewrite io_bind.
      destruct (smtp_all_run [Sendmail (EMAIL_FROM mc) (EMAIL_TO mc) text; Quit]
                  (add_calls fx (login_calls mc)))
        as [[Hok2 Hrun2]|(earlier2 & c2 & later2 & e & Heq2 & Hok2 & Hc2 & Hrun2)];
        rewrite Hrun2.
      * exists true. eexists. exists (session_calls mc text).
        split; [reflexivity|]. rewrite add_calls_app, <- session_calls_split.
        split; [reflexivity|]. split; [unfold prints_added; simpl; now rewrite app_nil_r|].
        exists text. split; [reflexivity|]. split; [reflexivity|].
        rewrite session_calls_split. now apply Forall_app.
      * rewrite handler_run, add_calls_app.
        exists false. eexists. exists (login_calls mc ++ earlier2 ++ [c2]).
        split; [reflexivity|]. split; [reflexivity|].
        exists e. split; [reflexivity|]. left.
        exists (login_calls mc ++ earlier2), c2.
        split; [now rewrite app_assoc|]. split; [exact Hc2|].
        split; [now apply Forall_app|].
        right. exists text. split; [reflexivity|].
        exists later2. rewrite session_calls_split, Heq2.
        now rewrite <- !app_assoc.
    + rewrite handler_run.
      exists false. eexists. exists (login_calls mc).
      split; [reflexivity|]. split; [reflexivity|].
      exists e. split; [reflexivity|]. right. auto.
  - rewrite handler_run.
    exists false. eexists. exists (earlier ++ [c]).
    split; [reflexivity|]. split; [reflexivity|].
    exists e. split; [reflexivity|]. left.
    exists earlier, c.
    split; [reflexivity|]. split; [exact Hc|]. split; [exact Hok|].
    left. exists later. rewrite Heq. now rewrite <- !app_assoc.
Qed.

Lemma quit_not_before (text : string) :
  Quit ∉ login_calls mc ++ [Sendmail (EMAIL_FROM mc) (EMAIL_TO mc) text].
Proof.
  unfold login_calls. destruct (SMTP_USE_TLS mc); cbn [app];
    rewrite !not_elem_of_cons; repeat split;
    first [discriminate | apply not_elem_of_nil].
Qed.

End SendEmail.

Section Lists.

Context {A : Type}.

(** In a list that ends with its only occurrence of [q], a prefix that
    holds [q] is the whole list. *)
Lemma prefix_with_last (pre made : list A) (q : A) :
  q ∉ pre -> made `prefix_of` (pre ++ [q]) -> q ∈ made -> made = pre ++ [q].
Proof.
  intros Hq [k Hk] Hin.
  destruct k as [|x k _] using rev_ind.
  - now rewrite app_nil_r in Hk.
  - rewrite app_assoc in Hk. apply app_inj_tail in Hk. destruct Hk as [Hk _].
    exfalso. apply Hq. rewrite Hk. apply elem_of_app. now left.
Qed.

Lemma prefix_elem_of (l1 l2 : list A) (x : A) :
  l1 `prefix_of` l2 -> x ∈ l1 -> x ∈ l2.
Proof. intros [k ->] H. apply elem_of_app. now left. Qed.

End Lists.


(** X2.  When [send_email] returns [True] it has printed nothing and made
    exactly the calls of one session, in order: the connection (followed
    by STARTTLS when TLS is configured, or made over SSL otherwise), the
    login, the submission of the rendered message, and quit. *)
Theorem send_email_success_session
    (mc : MailConfig) (mail : Mail) (subject body : string) (fx fx' : Effects) :
  send_email mc mail subject body fx = (Ret true, fx') ->
  exists text,
    as_string mail (message_of mc subject body) = Ret text /\
    printed fx' = printed fx /\
    smtp_calls fx' = smtp_calls fx ++
      (if SMTP_USE_TLS mc
       then [SMTP (SMTP_HOST mc) (SMTP_PORT mc); Starttls;
             Login (SMTP_USERNAME mc) (SMTP_PASSWORD mc);
             Sendmail (EMAIL_FROM mc) (EMAIL_TO mc) text; Quit]
       else [SMTP_SSL (SMTP_HOST mc) (SMTP_PORT mc);
             Login (SMTP_USERNAME mc) (SMTP_PASSWORD mc);
             Sendmail (EMAIL_FROM mc) (EMAIL_TO mc) text; Quit]).
Proof.
  intros Hrun.
  destruct (send_email_outcome mc mail subject body fx)
    as (sent & fx1 & made & Hrun' & Hcalls & Hcase).
  rewrite Hrun in Hrun'. injection Hrun' as <- <-.
  destruct Hcase as (Hprint & text & Hs & -> & _).
  exists text. split; [exact Hs|].
  split; [unfold prints_added in Hprint; now rewrite app_nil_r in Hprint|].
  rewrite Hcalls. unfold session_calls. now destruct (SMTP_USE_TLS mc).
Qed.

(** The statement for the settings of the script and a mail library
    that accepts every call. *)
Lemma send_email_success_session_witness :
  exists fx',
    send_email script_mail_config working_mail "subject" "body" no_effects
    = (Ret true, fx') /\
    printed fx' = [] /\
    smtp_calls fx'
    = [SMTP "smtp.mail.com" 587; Starttls;
       Login "tor.relay@activist.com" "YOUR_PASSWORD_HERE";
       Sendmail "tor.relay@activist.com" "tor.relay@activist.com"
         ("Subject: subject" +:+ str1 newline +:+ str1 newline +:+ "body");
       Quit].
Proof.
  eexists. split; [reflexivity|].
  destruct (send_email_success_session script_mail_config working_mail
              "subject" "body" no_effects _ eq_refl)
    as (text & Hs & Hp & Hc).
  split; [exact Hp|]. rewrite Hc.
  injection Hs as <-. reflexivity.
Defined.

(** X3.  When [send_email] returns [False] it has printed exactly one
    line, the failure notice with the message of the exception, and made
    no call after the one that failed: in particular the session is not
    closed, [quit] being among the calls only if it is the call that
    failed. *)
Theorem send_email_failure
    (mc : MailConfig) (mail : Mail) (subject body : string) (fx fx' : Effects) :
  send_email mc mail subject body fx = (Ret false, fx') ->
  exists e made,
    printed fx' = printed fx ++ ["Failed to send email: " +:+ e] /\
    smtp_calls fx' = smtp_calls fx ++ made /\
    (as_string mail (message_of mc subject body) = Raise e \/
     exists earlier c,
       made = earlier ++ [c] /\ smtp_reply mail c = Raise e /\
       Forall (fun c => smtp_reply mail c = Ret ()) earlier) /\
    (Quit ∈ made -> smtp_reply mail Quit = Raise e).
Proof.
  intros Hrun.
  destruct (send_email_outcome mc mail subject body fx)
    as (sent & fx1 & made & Hrun' & Hcalls & Hcase).
  rewrite Hrun in Hrun'. injection Hrun' as <- <-.
  destruct Hcase as (e & Hprint & Hcause).
  exists e, made. split; [exact Hprint|]. split; [exact Hcalls|].
  destruct Hcause as [(earlier & c & -> & Hc & Hok & Hpre)|(Hs & _ & ->)].
  - split; [right; eauto|]. intros Hquit.
    destruct Hpre as [Hpre|(text & Hs & Hpre)].
    + exfalso. apply (quit_not_before mc EmptyString).
      apply elem_of_app. left. eapply prefix_elem_of; eassumption.
    + assert (Hall : earlier ++ [c]
                     = (login_calls mc
                        ++ [Sendmail (EMAIL_FROM mc) (EMAIL_TO mc) text])
                       ++ [Quit]).
      { apply prefix_with_last; [apply quit_not_before| |exact Hquit].
        rewrite session_calls_split in Hpre. rewrite <- app_assoc. exact Hpre. }
      apply app_inj_tail in Hall. destruct Hall as [_ ->]. exact Hc.
  - split; [now left|]. intros Hquit. exfalso.
    apply (quit_not_before mc EmptyString). apply elem_of_app. now left.
Qed.

(** The statement for a mail server that refuses the login: three calls,
    no quit. *)
Lemma send_email_failure_witness :
  exists fx',
    send_email script_mail_config login_refused "subject" "body" no_effects
    = (Ret false, fx') /\
    printed fx'
    = ["Failed to send email: (535, b'Authentication credentials invalid')"] /\
    Quit ∉ smtp_calls fx'.
Proof.
  eexists. split; [reflexivity|].
  destruct (send_email_failure script_mail_config login_refused
              "subject" "body" no_effects _ eq_refl)
    as (e & made & Hp & Hc & _ & Hquit).
  split; [reflexivity|].
  intros Hin. rewrite Hc in Hin. specialize (Hquit Hin). discriminate Hquit.
Defined.

(** ** [main] *)

Section Main.

Variables (cfg : Config) (mc : MailConfig) (w : World) (mail : Mail).

Lemma main_run (to_stdout : bool) (fx : Effects) :
  exists report,
    get_relay_report cfg w = Ret report /\
    main cfg mc w mail to_stdout fx =
      match format_report_text report with
      | Raise e => (Raise e, fx)
      | Ret text =>
          if to_stdout then (Ret (), add_prints fx [text])
          else
            match send_email mc mail (subject cfg report) text fx with
            | (Ret true, fx1) =>
                (Ret (), add_prints fx1 ["Report sent to " +:+ EMAIL_TO mc])
            | (Ret false, fx1) =>
                (Ret (), add_prints fx1 ["Email failed, dumping report:"; text])
            | (Raise e, fx1) => (Raise e, fx1)
            end
      end.
Proof.
  destruct (get_relay_report_base cfg w) as (report & Hrun & _).
  exists report. split; [exact Hrun|].
  unfold main. rewrite io_pure_bind, Hrun, io_pure_bind.
  destruct (format_report_text report) as [text|e]; [|reflexivity].
  destruct to_stdout; [reflexivity|].
  rewrite io_bind.
  destruct (send_email mc mail (subject cfg report) text fx)
    as [[[]|e] fx1]; try reflexivity.
  rewrite io_bind. unfold print, add_prints; cbn. now rewrite <- app_assoc.
Qed.

End Main.

(** X4.  With [--stdout], [main] prints the rendered report, and nothing
    else, and makes no call on the mail library. *)
Theorem main_stdout
    (cfg : Config) (mc : MailConfig) (w : World) (mail : Mail) (fx : Effects) :
  exists report,
    get_relay_report cfg w = Ret report /\
    forall text,
      format_report_text report = Ret text ->
      main cfg mc w mail true fx
      = (Ret (), {| printed := printed fx ++ [text];
                    smtp_calls := smtp_calls fx |}).
Proof.
  destruct (main_run cfg mc w mail true fx) as (report & Hrun & Hmain).
  exists report. split; [exact Hrun|].
  intros text Htext. now rewrite Hmain, Htext.
Qed.

(** The healthy relay: its report renders. *)
Lemma healthy_report_renders :
  exists report text,
    get_relay_report script_config healthy_world = Ret report /\
    format_report_text report = Ret text.
Proof.
  destruct (outcome_inv (get_relay_report script_config healthy_world)
              (fun report =>
                 match format_report_text report with
                 | Ret _ => true
                 | Raise _ => false
                 end) true) as (report & Hrun & Hfmt).
  { vm_compute. reflexivity. }
  exists report. destruct (format_report_text report) as [text|]; [|discriminate].
  eauto.
Qed.

(** The statement for the healthy relay. *)
Lemma main_stdout_witness :
  exists text,
    main script_config script_mail_config healthy_world working_mail true
      no_effects
    = (Ret (), {| printed := [text]; smtp_calls := [] |}).
Proof.
  destruct healthy_report_renders as (report & text & Hrun & Htext).
  destruct (main_stdout script_config script_mail_config healthy_world
              working_mail no_effects) as (report' & Hrun' & Hmain).
  exists text. apply Hmain. congruence.
Defined.







(** ** The diagnostics of a report *)

Section Diagnostics.

Variables (cfg : Config) (w : World).
Implicit Types report : gmap string value.

Lemma preserves_setitem_quiet key v :
  key <> "warnings" -> key <> "errors" ->
  preserves no_diagnostics (setitem key v).
Proof.
  intros Hw He report [H1 H2]. unfold setitem, no_diagnostics; simpl.
  now rewrite !lookup_insert_ne by assumption.
Qed.

Ltac keep_quiet :=
  repeat first
    [ apply preserves_ret
    | apply preserves_call
    | apply preserves_item
    | apply preserves_item_int
    | apply preserves_setitem_quiet; discriminate
    | apply preserves_bind; [|intros ?] ].

Lemma quiet_basic_info c : preserves no_diagnostics (collect_basic_info c).
Proof. unfold collect_basic_info. keep_quiet. Qed.

Lemma quiet_traffic c : preserves no_diagnostics (collect_traffic c).
Proof. unfold collect_traffic. keep_quiet. Qed.

(** Lines 129-170 never raise once the fingerprint and the connection
    count are stored; they leave at most the error of the consensus
    lookup, and the connection warning followed by the flag warning. *)
Lemma checks_and_lookups_run c report fp count :
  report !! "fingerprint" = Some (VStr fp) ->
  report !! "connection_count" = Some (VInt count) ->
  no_diagnostics report ->
  exists report',
    checks_and_lookups cfg w c report = (Ret (), report') /\
    report' !! "connection_count" = Some (VInt count) /\
    report' !! "flags"
      = Some (VList (consensus_flags (get_network_status c fp))) /\
    report' !! "errors"
      = Some (VList (consensus_errors (get_network_status c fp))) /\
    report' !! "warnings"
      = Some (VList (threshold_warnings cfg count
                     ++ flag_warnings w
                          (consensus_flags (get_network_status c fp)))) /\
    (forall key,
       key ∉ ["warnings"; "errors"; "flags"; "bandwidth"; "published";
              "accounting"] ->
       report' !! key = report !! key).
Proof.
  intros Hfp Hcount [Hw He]. unfold checks_and_lookups.
  rewrite run_bind, (check_connection_thresholds_run cfg _ count [] Hcount Hw).
  cbn [app].
  set (r1 := <["warnings" := VList (threshold_warnings cfg count)]> report).
  rewrite run_bind, (collect_network_status_run c r1 fp []);
    [|unfold r1; now rewrite lookup_insert_ne by discriminate ..].
  cbn [app].
  set (status := get_network_status c fp).
  set (r2 := match status with Ret ns => _ | Raise e => _ end).
  assert (Hflags : r2 !! "flags" = Some (VList (consensus_flags status))).
  { unfold r2, consensus_flags. destruct status;
      rewrite ?lookup_insert_ne by discriminate; apply lookup_insert_eq. }
  assert (Hwarn : r2 !! "warnings" = Some (VList (threshold_warnings cfg count))).
  { unfold r2, r1. destruct status;
      rewrite !lookup_insert_ne by discriminate; apply lookup_insert_eq. }
  assert (Herr : r2 !! "errors" = Some (VList (consensus_errors status))).
  { unfold r2, r1, consensus_errors. destruct status.
    - now rewrite !lookup_insert_ne by discriminate.
    - apply lookup_insert_eq. }
  assert (Hcnt : r2 !! "connection_count" = Some (VInt count)).
  { unfold r2, r1. destruct status;
      now rewrite !lookup_insert_ne by discriminate. }
  rewrite run_bind, (check_expected_flags_run w r2 _ _ Hflags Hwarn).
  destruct (collect_accounting_run c
              (<["warnings" :=
                   VList (threshold_warnings cfg count
                          ++ flag_warnings w (consensus_flags status))]> r2))
    as (report' & Hrun & Hsame).
  exists report'. split; [exact Hrun|].
  rewrite !Hsame by discriminate.
  rewrite lookup_insert_eq, !lookup_insert_ne by discriminate.
  repeat split; try assumption.
  intros key Hkey. rewrite !not_elem_of_cons in Hkey.
  destruct Hkey as (K1 & K2 & K3 & K4 & K5 & K6 & _).
  rewrite Hsame by exact K6.
  rewrite lookup_insert_ne by (apply not_eq_sym, K1).
  unfold r2, r1. destruct status;
    now rewrite !lookup_insert_ne by (apply not_eq_sym; assumption).
Qed.

(** How the collection ends: with an exception before anything was
    recorded, or with the diagnostics of lines 129-170. *)
Lemma collect_outcome :
  match collect cfg w (initial_report w) with
  | (Raise e, report) => no_diagnostics report
  | (Ret _, report) =>
      exists c fp count,
        from_port w (TOR_CONTROL_HOST cfg) (TOR_CONTROL_PORT cfg) = Ret c /\
        get_info c "fingerprint" = Ret fp /\
        count = connection_count_of
                  (get_info_default c "orconn-status" EmptyString) /\
        report !! "connection_count" = Some (VInt count) /\
        report !! "flags"
          = Some (VList (consensus_flags (get_network_status c fp))) /\
        report !! "errors"
          = Some (VList (consensus_errors (get_network_status c fp))) /\
        report !! "warnings"
          = Some (VList (threshold_warnings cfg count
                         ++ flag_warnings w
                              (consensus_flags (get_network_status c fp))))
  end.
Proof.
  assert (H0 : no_diagnostics (initial_report w)) by (split; reflexivity).
  unfold collect. rewrite run_call_bind.
  destruct (from_port w (TOR_CONTROL_HOST cfg) (TOR_CONTROL_PORT cfg))
    as [c|e] eqn:Hc; [|exact H0].
  rewrite authenticate_call, run_call_bind.
  destruct (authenticate c (password_used cfg)) as [[]|e]; [|exact H0].
  rewrite run_bind.
  pose proof (quiet_basic_info c _ H0) as H1.
  destruct (collect_basic_info c (initial_report w)) as [[[]|e] r1];
    [|exact H1]. cbn [snd] in H1.
  rewrite run_bind.
  pose proof (quiet_traffic c _ H1) as H2.
  destruct (collect_traffic c r1) as [[[]|e] r2]; [|exact H2]. cbn [snd] in H2.
  rewrite run_bind.
  destruct (get_info c "fingerprint") as [fp|e] eqn:Hfp.
  2: { unfold collect_identity. now rewrite run_call_bind, Hfp. }
  rewrite (collect_identity_run cfg c r2 fp Hfp).
  rewrite run_bind.
  destruct (get_info c "status/circuit-established") as [est|e] eqn:Hest.
  2: { unfold collect_connections. rewrite run_call_bind, Hest.
       destruct H2 as [Hw He]. split;
         unfold with_identity; now rewrite !lookup_insert_ne by discriminate. }
  rewrite (collect_connections_run c _ est Hest).
  set (r4 := with_connections c est (with_identity cfg c fp r2)).
  destruct (checks_and_lookups_run c r4 fp
              (connection_count_of
                 (get_info_default c "orconn-status" EmptyString)))
    as (report' & Hrun & Hcount & Hflags & Herr & Hwarn & _).
  { unfold r4, with_connections, with_identity.
    rewrite !lookup_insert_ne by discriminate. apply lookup_insert_eq. }
  { unfold r4, with_connections. apply lookup_insert_eq. }
  { destruct H2 as [Hw He]. split; unfold r4, with_connections, with_identity;
      now rewrite !lookup_insert_ne by discriminate. }
  unfold checks_and_lookups in Hrun. rewrite Hrun.
  exists c, fp. eauto 10.
Qed.

End Diagnostics.

Section DiagnosticFacts.

Lemma threshold_warnings_length (cfg : Config) (count : Z) :
  (length (threshold_warnings cfg count) <= 1)%nat.
Proof.
  unfold threshold_warnings.
  destruct (_ <? _); [simpl; lia|]. destruct (_ <? _); simpl; lia.
Qed.

Lemma flag_warnings_length (w : World) (flags : list string) :
  (length (flag_warnings w flags) <= 1)%nat.
Proof.
  unfold flag_warnings. repeat case_bool_decide; simpl; lia.
Qed.

Lemma consensus_error_differs (e e' : string) :
  "Could not get network status: " +:+ e <> connect_failure e'.
Proof. unfold connect_failure. discriminate. Qed.

Lemma connect_failure_text (e : string) :
  contains "Failed to connect" (connect_failure e) = true.
Proof.
  unfold connect_failure.
  apply (contains_intro EmptyString "Failed to connect"
           (" to Tor control port: " +:+ e)).
Qed.

End DiagnosticFacts.

Section ReportOf.

Variables (cfg : Config) (w : World) (report : gmap string value).
Hypothesis Hreport : get_relay_report cfg w = Ret report.

Lemma report_base_fields_of : has_base_fields w report.
Proof.
  destruct (get_relay_report_base cfg w) as (report' & Hrun & Hbase).
  congruence.
Qed.

Lemma report_diagnostics_of :
  exists warnings errors,
    report !! "warnings" = Some (VList warnings) /\
    report !! "errors" = Some (VList errors) /\
    ((exists e, errors = [connect_failure e] /\ warnings = []) \/
     (exists count flags,
        report !! "connection_count" = Some (VInt count) /\
        report !! "flags" = Some (VList flags) /\
        warnings = threshold_warnings cfg count ++ flag_warnings w flags /\
        (errors = [] \/
         exists e, errors = ["Could not get network status: " +:+ e]))).
Proof.
  pose proof (get_relay_report_run cfg w) as Hrun.
  pose proof (collect_outcome cfg w) as Hout.
  destruct (collect cfg w (initial_report w)) as [[[]|e] report'].
  - destruct Hrun as [Hrun _].
    assert (report' = report) as -> by congruence.
    destruct Hout as (c & fp & count & _ & _ & _ & Hcount & Hflags & Herr & Hwarn).
    eexists. eexists. split; [exact Hwarn|]. split; [exact Herr|].
    right. exists count, (consensus_flags (get_network_status c fp)).
    split; [exact Hcount|]. split; [exact Hflags|]. split; [reflexivity|].
    unfold consensus_errors. destruct (get_network_status c fp); eauto.
  - destruct Hrun as (errors & Herrors & Hrun & _).
    destruct Hout as [Hw He].
    assert (errors = []) as -> by congruence.
    assert (report = <["errors" := VList ([] ++ [connect_failure e])]> report')
      as -> by congruence.
    exists [], [connect_failure e].
    split; [now rewrite lookup_insert_ne by discriminate|].
    split; [apply lookup_insert_eq|].
    left. eauto.
Qed.

End ReportOf.

(** X8.  A report of the collector carries at most one error and at
    most two warnings.  Either the collection was abandoned: the one
    error is the Failed-to-connect entry and there is no warning.  Or it
    ran to its end: the warnings are the connection warning (if any)
    followed by the flag warning (if any), for the stored connection count
    and flags, and the only possible error is the one of the consensus
    lookup. *)
Theorem report_diagnostics
    (cfg : Config) (w : World) (report : gmap string value) :
  get_relay_report cfg w = Ret report ->
  exists warnings errors,
    report !! "warnings" = Some (VList warnings) /\
    report !! "errors" = Some (VList errors) /\
    (length warnings <= 2)%nat /\ (length errors <= 1)%nat /\
    ((exists e, errors = [connect_failure e] /\ warnings = []) \/
     (exists count flags,
        report !! "connection_count" = Some (VInt count) /\
        report !! "flags" = Some (VList flags) /\
        warnings = threshold_warnings cfg count ++ flag_warnings w flags /\
        (errors = [] \/
         exists e, errors = ["Could not get network status: " +:+ e]))).
Proof.
  intros Hrun.
  destruct (report_diagnostics_of cfg w report Hrun)
    as (warnings & errors & Hw & He & Hcase).
  exists warnings, errors. split; [exact Hw|]. split; [exact He|].
  split; [|split; [|exact Hcase]].
  - destruct Hcase as [(e & _ & ->)|(count & flags & _ & _ & -> & _)];
      [simpl; lia|].
    rewrite length_app.
    pose proof (threshold_warnings_length cfg count).
    pose proof (flag_warnings_length w flags). lia.
  - destruct Hcase as [(e & -> & _)|(count & flags & _ & _ & _ & [->|(e & ->)])];
      simpl; lia.
Qed.

(** The statement for the healthy relay: one warning, no error. *)
Lemma report_diagnostics_witness :
  exists report,
    get_relay_report script_config healthy_world = Ret report /\
    report !! "warnings" = Some (VList [warning_message 75 100]) /\
    report !! "errors" = Some (VList []).
Proof.
  destruct (outcome_inv (get_relay_report script_config healthy_world)
              (fun report => (report !! "warnings", report !! "errors"))
              (Some (VList [warning_message 75 100]), Some (VList [])))
    as (report & Hrun & [= Hw He]).
  { vm_compute. reflexivity. }
  destruct (report_diagnostics script_config healthy_world report Hrun)
    as (warnings & errors & Hw' & He' & _).
  exists report. auto.
Defined.

(** X9.  When a report of the collector carries the Failed-to-connect
    error, whatever was collected before the failure is not shown and is
    not signalled as a warning: the subject gets the error indicator, and
    the document is the header followed by the errors section with that
    one error. *)
Theorem abandoned_collection_report
    (cfg : Config) (w : World) (report : gmap string value)
    (errors : list string) (e : string) :
  get_relay_report cfg w = Ret report ->
  report !! "errors" = Some (VList errors) ->
  In (connect_failure e) errors ->
  errors = [connect_failure e] /\
  report !! "warnings" = Some (VList []) /\
  status_emoji report = "❌" /\
  exists header,
    header_lines report = Ret header /\
    format_report_text report
    = Ret (join (str1 newline)
             (header ++ errors_section [connect_failure e])).
Proof.
  intros Hrun Herrors Hin.
  destruct (report_base_fields_of cfg w report Hrun)
    as (Hg & _ & _ & _).
  destruct (report_diagnostics_of cfg w report Hrun)
    as (warnings & errors' & Hw & He & Hcase).
  assert (errors' = errors) as -> by congruence.
  assert (Hab : errors = [connect_failure e] /\ warnings = []).
  { destruct Hcase as [(e' & -> & ->)|(count & flags & _ & _ & _ & Herr)].
    - destruct Hin as [Heq|[]]. now rewrite Heq.
    - exfalso. destruct Herr as [->|(e' & ->)]; [destruct Hin|].
      destruct Hin as [Heq|[]]. now apply consensus_error_differs in Heq. }
  destruct Hab as [-> ->].
  split; [reflexivity|]. split; [exact Hw|].
  split; [unfold status_emoji, get_or; now rewrite Hw, He|].
  assert (Hstop : contains "Failed to connect"
                    (repr_list [connect_failure e]) = true).
  { eapply contains_repr_list;
      [reflexivity | reflexivity | now left | apply connect_failure_text]. }
  unfold format_report_text, report_lines, header_lines, alert_lines,
    error_lines, stops_after_errors, getitem, get_or.
  rewrite Hg, Hw, He.
  cbn [mbind outcome_bind obind iter_strs truthy py_str bool_decide
         decide_rel negb].
  eexists. split; [reflexivity|].
  cbn. rewrite Hstop. reflexivity.
Qed.

(** The statement for the relay whose version query fails. *)
Lemma abandoned_collection_report_witness :
  exists report,
    get_relay_report script_config (world_of (Ret version_fails)) = Ret report /\
    status_emoji report = "❌".
Proof.
  destruct (outcome_inv
              (get_relay_report script_config (world_of (Ret version_fails)))
              (fun report => report !! "errors")
              (Some (VList [connect_failure "GETINFO version failed"])))
    as (report & Hrun & Herrors).
  { vm_compute. reflexivity. }
  exists report. split; [exact Hrun|].
  destruct (abandoned_collection_report script_config
              (world_of (Ret version_fails)) report
              [connect_failure "GETINFO version failed"]
              "GETINFO version failed" Hrun Herrors (or_introl eq_refl))
    as (_ & _ & Hsubject & _).
  exact Hsubject.
Defined.


(** X10.  A connection list that cannot be queried counts as no
    connection: when the orconn-status query fails and the collection
    runs to its end, the report counts 0 connections, and with a positive
    critical threshold its first warning is the CRITICAL one. *)
Theorem failed_connection_list
    (cfg : Config) (w : World) (c : Controller)
    (report : gmap string value) (e : string) :
  get_relay_report cfg w = Ret report ->
  from_port w (TOR_CONTROL_HOST cfg) (TOR_CONTROL_PORT cfg) = Ret c ->
  get_info c "orconn-status" = Raise e ->
  (exists e', report !! "errors" = Some (VList [connect_failure e'])) \/
  (report !! "connection_count" = Some (VInt 0) /\
   (0 < MIN_CONNECTIONS_CRIT cfg ->
    exists more,
      report !! "warnings"
      = Some (VList (critical_message 0 (MIN_CONNECTIONS_CRIT cfg) :: more)))).
Proof.
  intros Hrun Hc Horconn.
  pose proof (get_relay_report_run cfg w) as Hstep.
  pose proof (collect_outcome cfg w) as Hout.
  destruct (collect cfg w (initial_report w)) as [[[]|e'] report'].
  - right. destruct Hstep as [Hstep _].
    assert (report' = report) as -> by congruence.
    destruct Hout as (c' & fp & count & Hc' & _ & Hcount & Hlookup & _ & _ & Hwarn).
    assert (c' = c) as -> by congruence.
    assert (count = 0) as ->.
    { rewrite Hcount. unfold get_info_default. rewrite Horconn. reflexivity. }
    split; [exact Hlookup|].
    intros Hcrit. rewrite Hwarn. unfold threshold_warnings.
    destruct (Z.ltb_spec 0 (MIN_CONNECTIONS_CRIT cfg)) as [_|H]; [|lia].
    cbn [app]. eauto.
  - left. destruct Hstep as (errors & Herrors & Hstep & _).
    destruct Hout as [_ He].
    assert (errors = []) as -> by congruence.
    exists e'.
    assert (report = <["errors" := VList ([] ++ [connect_failure e'])]> report')
      as -> by congruence.
    apply lookup_insert_eq.
Qed.

(** The statement for the relay whose defaulted queries all fail. *)
Lemma failed_connection_list_witness :
  exists report more,
    get_relay_report script_config (world_of (Ret required_only)) = Ret report /\
    report !! "connection_count" = Some (VInt 0) /\
    report !! "warnings" = Some (VList (critical_message 0 50 :: more)).
Proof.
  destruct (outcome_inv
              (get_relay_report script_config (world_of (Ret required_only)))
              (fun report => report !! "errors")
              (Some (VList ["Could not get network status: GETINFO ns/id failed"])))
    as (report & Hrun & Herrors).
  { vm_compute. reflexivity. }
  destruct (failed_connection_list script_config
              (world_of (Ret required_only)) required_only report
              "GETINFO orconn-status failed" Hrun eq_refl eq_refl)
    as [(e' & He')|(Hcount & Hwarn)].
  - rewrite Herrors in He'. discriminate He'.
  - destruct (Hwarn ltac:(reflexivity)) as (more & Hmore).
    exists report, more. auto.
Defined.
(** ** The flag check and the accounting lookup *)

Section ExpectedFlags.

Lemma elem_of_expected_flags (name : string) :
  name ∈ expected_flags <-> name = "Running" \/ name = "Valid".
Proof.
  unfold expected_flags. rewrite elem_of_union, !elem_of_singleton. tauto.
Qed.

Lemma missing_flags_spec (flags : list string) (name : string) :
  name ∈ expected_flags ∖ list_to_set flags
  <-> (name = "Running" \/ name = "Valid") /\ name ∉ flags.
Proof.
  rewrite elem_of_difference, elem_of_expected_flags, elem_of_list_to_set.
  tauto.
Qed.

Lemma nothing_missing (flags : list string) :
  expected_flags ∖ list_to_set flags = (∅ : gset string)
  <-> "Running" ∈ flags /\ "Valid" ∈ flags.
Proof.
  split.
  - intros Hempty.
    assert (Hin : forall name, name = "Running" \/ name = "Valid" -> name ∈ flags).
    { intros name Hname. destruct (decide (name ∈ flags)) as [|Hnot]; [assumption|].
      exfalso. apply (not_elem_of_empty (C := gset string) name).
      rewrite <- Hempty. apply missing_flags_spec. tauto. }
    split; apply Hin; auto.
  - intros [Hr Hv]. apply elem_of_equiv_empty_L. intros name Hname.
    apply missing_flags_spec in Hname. destruct Hname as [[->| ->] Hnot]; tauto.
Qed.

End ExpectedFlags.

(** X11.  On a non-empty list of flags the check of lines 151-159 appends
    a warning exactly when Running or Valid is not among the flags, and
    the warning names the missing ones, each once and nothing else; with
    both present the report is left as it is. *)
Theorem expected_flags_check
    (w : World) (report : gmap string value) (flags warnings : list string) :
  set_order_ok w ->
  report !! "flags" = Some (VList flags) ->
  report !! "warnings" = Some (VList warnings) ->
  flags <> [] ->
  ("Running" ∈ flags /\ "Valid" ∈ flags ->
   check_expected_flags w report = (Ret (), report)) /\
  (~ ("Running" ∈ flags /\ "Valid" ∈ flags) ->
   exists names,
     NoDup names /\
     (forall name,
        name ∈ names <-> (name = "Running" \/ name = "Valid") /\ name ∉ flags) /\
     check_expected_flags w report
     = (Ret (),
        <["warnings" := VList (warnings ++ [missing_flags_message names])]>
          report)).
Proof.
  intros Horder Hflags Hwarnings Hne.
  rewrite (check_expected_flags_run w report flags warnings Hflags Hwarnings).
  unfold flag_warnings.
  rewrite bool_decide_eq_false_2 by exact Hne.
  split.
  - intros Hboth. apply nothing_missing in Hboth.
    rewrite bool_decide_eq_true_2 by exact Hboth.
    now rewrite app_nil_r, insert_id.
  - intros Hnot. rewrite <- nothing_missing in Hnot.
    rewrite bool_decide_eq_false_2 by exact Hnot.
    exists (set_order w (expected_flags ∖ list_to_set flags)).
    split; [rewrite (Horder _); apply NoDup_elements|].
    split; [|reflexivity].
    intros name. rewrite (Horder _), elem_of_elements.
    apply missing_flags_spec.
Qed.

(** The statement for the single flag Running: the warning names
    Valid, and not Running. *)
Lemma expected_flags_check_witness :
  exists names,
    check_expected_flags healthy_world
      (<["flags" := VList ["Running"]]> quiet_report)
    = (Ret (),
       <["warnings" := VList ([] ++ [missing_flags_message names])]>
         (<["flags" := VList ["Running"]]> quiet_report)) /\
    "Valid" ∈ names /\ "Running" ∉ names.
Proof.
  assert (Hflags : (<["flags" := VList ["Running"]]> quiet_report) !! "flags"
                   = Some (VList ["Running"])) by apply lookup_insert_eq.
  assert (Hwarnings :
            (<["flags" := VList ["Running"]]> quiet_report) !! "warnings"
            = Some (VList [])) by (vm_compute; reflexivity).
  assert (Hvalid : "Valid" ∉ ["Running"]).
  { intros H. apply list_elem_of_singleton in H. discriminate. }
  destruct (expected_flags_check healthy_world
              (<["flags" := VList ["Running"]]> quiet_report)
              ["Running"] []
              (fun X => reflexivity (elements X)) Hflags Hwarnings
              ltac:(discriminate))
    as (_ & Hmissing).
  destruct Hmissing as (names & _ & Hnames & Hrun); [tauto|].
  exists names. split; [exact Hrun|]. split.
  - apply Hnames. auto.
  - intros H. apply Hnames in H. destruct H as [_ H]. apply H.
    apply list_elem_of_singleton. reflexivity.
Defined.

(** X12.  Without flags the check does nothing: when the report has no
    flags entry or an empty list of flags (a consensus entry that lists
    none), no warning is appended although Running and Valid are both
    missing. *)
Theorem no_flags_no_warning (w : World) (report : gmap string value) :
  report !! "flags" = None \/ report !! "flags" = Some (VList []) ->
  check_expected_flags w report = (Ret (), report).
Proof.
  intros [H|H]; unfold check_expected_flags;
    rewrite run_bind, run_get; unfold get_or; now rewrite H.
Qed.

(** The statement for a report that has no flags entry. *)
Lemma no_flags_no_warning_witness :
  quiet_report !! "flags" = None /\
  check_expected_flags healthy_world quiet_report = (Ret (), quiet_report).
Proof.
  assert (quiet_report !! "flags" = None) as Hnone by (vm_compute; reflexivity).
  split; [exact Hnone|].
  apply (no_flags_no_warning healthy_world quiet_report).
  left. exact Hnone.
Defined.

(** X13.  The accounting lookup never raises and touches no other field.
    It attaches the accounting record, with the two answers, exactly when
    accounting is reported enabled and both queries answer; otherwise the
    report is left as it is, a failure leaving no trace. *)
Theorem accounting_lookup (c : Controller) (report : gmap string value) :
  exists report',
    collect_accounting c report = (Ret (), report') /\
    (forall key, key <> "accounting" -> report' !! key = report !! key) /\
    ((exists bytes_left interval_end,
        get_info_default c "accounting/enabled" "0" = "1" /\
        get_info c "accounting/bytes-left" = Ret bytes_left /\
        get_info c "accounting/interval-end" = Ret interval_end /\
        report' = <["accounting" :=
                      VDict [("bytes_left", bytes_left);
                             ("interval_end", interval_end)]]> report) \/
     ((get_info_default c "accounting/enabled" "0" <> "1" \/
       (exists e, get_info c "accounting/bytes-left" = Raise e) \/
       (exists e, get_info c "accounting/interval-end" = Raise e)) /\
      report' = report)).
Proof.
  unfold collect_accounting, try_except.
  case_bool_decide as Henabled.
  - rewrite run_call_bind.
    destruct (get_info c "accounting/bytes-left") as [bytes_left|e].
    + rewrite run_call_bind.
      destruct (get_info c "accounting/interval-end") as [interval_end|e].
      * eexists. split; [reflexivity|]. split.
        { intros key Hkey. unfold setitem; simpl.
          now rewrite lookup_insert_ne by congruence. }
        left. exists bytes_left, interval_end. auto.
      * exists report. split; [reflexivity|]. split; [reflexivity|].
        right. split; [|reflexivity]. right; right. eauto.
    + exists report. split; [reflexivity|]. split; [reflexivity|].
      right. split; [|reflexivity]. right; left. eauto.
  - exists report. split; [reflexivity|]. split; [reflexivity|].
    right. split; [|reflexivity]. now left.
Qed.

(** ** Where [format_bytes] raises *)

Section Overflow.

(** From [float_int_bound] on, the nearest binary64 number is [2^1024]
    or more. *)
Lemma round_dyadic_overflow (neg : bool) (m : Z) :
  float_int_bound <= m -> float_overflow (round_dyadic neg m 0) = true.
Proof.
  unfold float_int_bound. intros Hm.
  assert (Hbig : 2 ^ 1023 <= m).
  { change (2 ^ 1024) with (2 * 2 ^ 1023) in Hm.
    assert (2 ^ 970 <= 2 ^ 1023) by (apply Z.pow_le_mono_r; lia). lia. }
  assert (Hpos : 0 < m) by (assert (0 < 2 ^ 1023) by (apply Z.pow_pos_nonneg; lia); lia).
  pose proof (Z.log2_spec m Hpos) as [Hlo Hhi].
  assert (Hlog : 1023 <= Z.log2 m) by (apply Z.log2_le_pow2; lia).
  set (s := Z.log2 m - 52).
  assert (Hs : 971 <= s) by (unfold s; lia).
  assert (Hden : 0 < 2 ^ s) by (apply Z.pow_pos_nonneg; lia).
  assert (Hlo' : 2 ^ 52 * 2 ^ s <= m).
  { rewrite <- Z.pow_add_r by lia.
    now replace (52 + s) with (Z.log2 m) by (unfold s; lia). }
  assert (Hhi' : m < 2 ^ 53 * 2 ^ s).
  { rewrite <- Z.pow_add_r by lia.
    now replace (53 + s) with (Z.succ (Z.log2 m)) by (unfold s; lia). }
  assert (Hq0 : 2 ^ 52 <= m / 2 ^ s < 2 ^ 53).
  { split.
    - apply Z.div_le_lower_bound; lia.
    - apply Z.div_lt_upper_bound; lia. }
  pose proof (Z.div_mod m (2 ^ s) ltac:(lia)) as Hdm.
  pose proof (Z.mod_pos_bound m (2 ^ s) Hden) as Hr.
  unfold round_dyadic.
  destruct (Z.eqb_spec m 0) as [->|_]; [lia|].
  cbv zeta.
  replace (0 + (Z.log2 m + 1) - 53) with s by (unfold s; lia).
  rewrite Z.max_l by lia.
  destruct (Z.leb_spec s 0) as [H|_]; [lia|].
  rewrite Z.sub_0_r.
  set (q := half_even (m / 2 ^ s) (m mod 2 ^ s) (2 ^ s)).
  assert (Hqlo : m / 2 ^ s <= q).
  { unfold q, half_even. destruct (_ || _); lia. }
  assert (Hpow : 2 ^ 1024 <= 2 ^ 53 * 2 ^ s).
  { rewrite <- Z.pow_add_r by lia. apply Z.pow_le_mono_r; lia. }
  destruct (Z.eqb_spec q (2 ^ 53)) as [Hq53|Hq53].
  - unfold float_overflow; cbn [fexp fmant].
    apply andb_true_intro. split; [apply Z.ltb_lt; lia|].
    apply Z.leb_le.
    replace (2 ^ 52 * 2 ^ (s + 1)) with (2 ^ 53 * 2 ^ s); [exact Hpow|].
    rewrite Z.pow_add_r by lia.
    change (2 ^ 53) with (2 ^ 52 * 2). change (2 ^ 1) with 2. ring.
  - unfold float_overflow; cbn [fexp fmant].
    apply andb_true_intro. split; [apply Z.ltb_lt; lia|].
    apply Z.leb_le.
    destruct (Z.eq_dec s 971) as [E|E].
    + exfalso. apply Hq53. rewrite E in *.
      assert (Hq0' : m / 2 ^ 971 = 2 ^ 53 - 1).
      { assert (2 ^ 53 - 1 <= m / 2 ^ 971); [|lia].
        apply Z.div_le_lower_bound; [lia|].
        change (2 ^ 1024) with (2 ^ 971 * 2 ^ 53) in Hm.
        change (2 ^ 971) with (2 * 2 ^ 970) in Hm |- *.
        assert (0 < 2 ^ 970) by (apply Z.pow_pos_nonneg; lia). lia. }
      unfold q, half_even. rewrite ?E, Hq0'.
      assert (Hrem : 2 ^ 971 <= 2 * (m mod 2 ^ 971)).
      { rewrite Hq0' in Hdm.
        change (2 ^ 1024) with (2 ^ 971 * 2 ^ 53) in Hm.
        change (2 ^ 971) with (2 * 2 ^ 970) in Hm, Hdm |- *.
        lia. }
      destruct (Z.ltb_spec (2 ^ 971) (2 * (m mod 2 ^ 971))) as [_|Hle];
        [simpl; lia|].
      destruct (Z.eqb_spec (2 * (m mod 2 ^ 971)) (2 ^ 971)) as [_|Hne];
        [|lia].
      change (Z.odd (2 ^ 53 - 1)) with true. simpl. lia.
    + assert (Hs' : 972 <= s) by lia.
      apply Z.le_trans with (2 ^ 52 * 2 ^ s).
      * rewrite <- Z.pow_add_r by lia. apply Z.pow_le_mono_r; lia.
      * apply Z.mul_le_mono_nonneg_r; lia.
Qed.

Lemma float_of_int_overflow (n : Z) :
  float_int_bound <= Z.abs n ->
  float_of_int n = Raise "int too large to convert to float".
Proof.
  intros H. unfold float_of_int.
  now rewrite round_dyadic_overflow.
Qed.

Lemma float_int_bound_large : 1024 <= float_int_bound.
Proof. unfold float_int_bound. vm_compute. discriminate. Qed.

End Overflow.

(** X14.  [format_bytes] raises in one case only: its argument is an
    [int] of magnitude [2^1024 - 2^970] or more, which the division by
    1024.0 cannot convert.  It raises on no [float] and on no smaller
    [int]. *)
Theorem format_bytes_raises_iff (v : num) :
  (exists e, format_bytes v = Raise e) <->
  (exists n, v = NInt n /\ float_int_bound <= Z.abs n).
Proof.
  split.
  - intros (e & He). destruct v as [n|x].
    + exists n. split; [reflexivity|].
      destruct (Z.le_gt_cases float_int_bound (Z.abs n)) as [H|H]; [exact H|].
      exfalso.
      destruct (Z.lt_ge_cases (Z.abs n) (2 ^ 53)) as [Hsmall|Hbig].
      * rewrite (format_bytes_small n Hsmall) in He. discriminate.
      * destruct (float_of_int_big n (conj Hbig H)) as (q & ex & Hconv & Hq & Hex).
        rewrite (format_bytes_big n q ex Hbig Hconv Hq Hex) in He. discriminate.
    + destruct (format_bytes_float x) as (s & Hs). congruence.
  - intros (n & -> & Hn).
    exists "int too large to convert to float".
    pose proof float_int_bound_large as Hlarge.
    unfold format_bytes.
    cbn [format_bytes_loop num_abs_lt_1024 num_div_1024].
    destruct (Z.ltb_spec (Z.abs n) 1024) as [H|_]; [lia|].
    now rewrite (float_of_int_overflow n Hn).
Qed.

(** ** Durations: negative input, and reading a duration back *)

Section DurationReadBack.

Lemma pretty_N_char_other (c : ascii) (d : N) :
  is_digit c = false -> Ascii.eqb (pretty_N_char d) c = false.
Proof.
  intros Hc. apply Ascii.eqb_neq. intros <-.
  unfold pretty_N_char in Hc. repeat case_match; discriminate.
Qed.

Lemma pretty_N_go_other (c : ascii) (x : N) (s : string) :
  is_digit c = false -> has_char c (pretty_N_go x s) = has_char c s.
Proof.
  intros Hc. revert s. induction (N.lt_wf_0 x) as [x _ IH]. intros s.
  destruct (N.eq_0_gt_0_cases x) as [->|Hpos].
  - now rewrite pretty_N_go_0.
  - rewrite pretty_N_go_step by exact Hpos.
    rewrite IH by (apply N.div_lt; [exact Hpos | reflexivity]).
    simpl. now rewrite pretty_N_char_other.
Qed.

(** A printed integer holds no space. *)
Lemma str_int_no_space (n : Z) : has_char " " (str_int n) = false.
Proof.
  assert (HN : forall x : N, has_char " " (pretty x) = false).
  { intros x. unfold pretty, pretty_N. case_decide; [reflexivity|].
    now apply pretty_N_go_other. }
  unfold str_int, pretty, pretty_Z. destruct n as [|p|p].
  - reflexivity.
  - apply HN.
  - rewrite has_char_app. simpl. apply (HN (N.pos p)).
Qed.

Lemma segment_no_space (n : Z) (c : ascii) :
  c <> " "%char -> has_char " " (segment n (str1 c)) = false.
Proof.
  intros Hc. unfold segment. rewrite has_char_app, str_int_no_space. simpl.
  rewrite orb_false_r. now apply Ascii.eqb_neq.
Qed.

(** Two texts cut at their first space agree piece by piece. *)
Lemma cut_at_space (x y r1 r2 : string) :
  has_char " " x = false -> has_char " " y = false ->
  x +:+ String " " r1 = y +:+ String " " r2 -> x = y /\ r1 = r2.
Proof.
  revert y. induction x as [|a x IH]; intros [|b y];
    rewrite ?append_cons, ?append_nil_l; simpl; intros Hx Hy Heq.
  - now inversion Heq.
  - inversion Heq; subst. now rewrite Ascii.eqb_refl in Hy.
  - inversion Heq; subst. now rewrite Ascii.eqb_refl in Hx.
  - apply orb_false_elim in Hx, Hy. destruct Hx as [_ Hx], Hy as [_ Hy].
    inversion Heq; subst. destruct (IH y Hx Hy) as [-> ->]; auto.
Qed.

Lemma no_space_not_cut (x y r : string) :
  has_char " " x = false -> x <> y +:+ String " " r.
Proof.
  intros Hx ->. rewrite has_char_app in Hx. simpl in Hx.
  now rewrite orb_true_r in Hx.
Qed.

(** Joining with spaces loses nothing when no part is empty or holds a
    space. *)
Lemma join_space_inj (l1 l2 : list string) :
  Forall (fun p => has_char " " p = false /\ p <> EmptyString) l1 ->
  Forall (fun p => has_char " " p = false /\ p <> EmptyString) l2 ->
  join " " l1 = join " " l2 -> l1 = l2.
Proof.
  unfold join. intros H1. revert l2.
  induction H1 as [|x l1 [Hx Hxne] H1 IH]; intros l2 H2 Heq.
  - destruct H2 as [|y l2 [Hy Hyne] H2]; [reflexivity|].
    exfalso. simpl in Heq. destruct l2; [congruence|].
    destruct y; [congruence | discriminate].
  - destruct H2 as [|y l2 [Hy Hyne] H2].
    + exfalso. simpl in Heq. destruct l1; [congruence|].
      destruct x; [congruence | discriminate].
    + destruct l1 as [|x' l1], l2 as [|y' l2].
      * simpl in Heq. now subst.
      * exfalso. simpl in Heq. revert Heq. now apply no_space_not_cut.
      * exfalso. simpl in Heq. symmetry in Heq. revert Heq.
        now apply no_space_not_cut.
      * change (x +:+ String " " (String.concat " " (x' :: l1))
                = y +:+ String " " (String.concat " " (y' :: l2))) in Heq.
        destruct (cut_at_space _ _ _ _ Hx Hy Heq) as [-> Hrest].
        f_equal. now apply IH.
Qed.

Lemma duration_parts_clean (seconds : Z) :
  Forall (fun p => has_char " " p = false /\ p <> EmptyString)
    (duration_parts seconds).
Proof.
  rewrite duration_parts_unfold. unfold seg.
  repeat apply Forall_app_2;
    match goal with |- Forall _ (if ?b then _ else _) => destruct b end;
    repeat constructor;
    first [ apply segment_no_space; discriminate
          | apply append_last_not_nil ].
Qed.

Lemma length_append (a b : string) :
  String.length (a +:+ b) = (String.length a + String.length b)%nat.
Proof.
  induction a as [|c a IH]; [reflexivity|].
  rewrite append_cons. simpl. now rewrite IH.
Qed.

Lemma append_cancel_r (a b unit : string) :
  a +:+ unit = b +:+ unit -> a = b.
Proof.
  revert b. induction a as [|c a IH]; intros [|d b];
    rewrite ?append_cons, ?append_nil_l; intros H.
  - reflexivity.
  - exfalso. apply (f_equal String.length) in H.
    simpl in H. rewrite length_append in H. lia.
  - exfalso. apply (f_equal String.length) in H.
    simpl in H. rewrite length_append in H. lia.
  - inversion H; subst. f_equal. now apply IH.
Qed.

(** The value of a segment is read off the parts. *)
Lemma segment_inj (a b : Z) (unit : string) :
  segment a unit = segment b unit -> a = b.
Proof.
  unfold segment, str_int. intros H.
  apply (inj pretty). now apply append_cancel_r in H.
Qed.

Lemma recompose (seconds : Z) :
  seconds = days_of seconds * 86400 + hours_of seconds * 3600
            + minutes_of seconds * 60 + secs_of seconds.
Proof.
  unfold days_of, hours_of, minutes_of, secs_of.
  pose proof (Z.div_mod seconds 86400 ltac:(lia)).
  pose proof (Z.div_mod (seconds mod 86400) 3600 ltac:(lia)).
  pose proof (Z.div_mod ((seconds mod 86400) mod 3600) 60 ltac:(lia)).
  lia.
Qed.

End DurationReadBack.

Section DurationValues.

Variables a b : Z.
Hypothesis Ha : 0 <= a.
Hypothesis Hb : 0 <= b.
Hypothesis Hparts : duration_parts a = duration_parts b.

Lemma days_agree : days_of a = days_of b.
Proof.
  destruct (breakdown_nonneg a Ha) as (Hda & _).
  destruct (breakdown_nonneg b Hb) as (Hdb & _).
  assert (Hin : forall x y : Z,
             duration_parts x = duration_parts y -> 0 <= days_of x ->
             days_of x <> 0 -> days_of x = days_of y).
  { intros x y Hxy Hpos Hne.
    assert (In (segment (days_of x) "d") (duration_parts y)) as H.
    { rewrite <- Hxy, duration_parts_unfold, in_segs. left.
      split; [apply Z.ltb_lt; lia | reflexivity]. }
    rewrite duration_parts_unfold, in_segs in H.
    destruct H as [[_ E]|[[_ E]|[[_ E]|[_ E]]]];
      try (exfalso; revert E; apply segment_unit_differs; discriminate).
    now apply segment_inj in E. }
  destruct (Z.eq_dec (days_of a) 0) as [Ea|Ea];
    destruct (Z.eq_dec (days_of b) 0) as [Eb|Eb].
  - congruence.
  - symmetry. now apply Hin.
  - now apply Hin.
  - now apply Hin.
Qed.

Lemma hours_agree : hours_of a = hours_of b.
Proof.
  destruct (breakdown_nonneg a Ha) as (_ & Hha & _).
  destruct (breakdown_nonneg b Hb) as (_ & Hhb & _).
  assert (Hin : forall x y : Z,
             duration_parts x = duration_parts y -> 0 <= hours_of x ->
             hours_of x <> 0 -> hours_of x = hours_of y).
  { intros x y Hxy Hpos Hne.
    assert (In (segment (hours_of x) "h") (duration_parts y)) as H.
    { rewrite <- Hxy, duration_parts_unfold, in_segs. right; left.
      split; [apply Z.ltb_lt; lia | reflexivity]. }
    rewrite duration_parts_unfold, in_segs in H.
    destruct H as [[_ E]|[[_ E]|[[_ E]|[_ E]]]];
      try (exfalso; revert E; apply segment_unit_differs; discriminate).
    now apply segment_inj in E. }
  destruct (Z.eq_dec (hours_of a) 0) as [Ea|Ea];
    destruct (Z.eq_dec (hours_of b) 0) as [Eb|Eb].
  - congruence.
  - symmetry. now apply Hin.
  - now apply Hin.
  - now apply Hin.
Qed.

Lemma minutes_agree : minutes_of a = minutes_of b.
Proof.
  destruct (breakdown_nonneg a Ha) as (_ & _ & Hma & _).
  destruct (breakdown_nonneg b Hb) as (_ & _ & Hmb & _).
  assert (Hin : forall x y : Z,
             duration_parts x = duration_parts y -> 0 <= minutes_of x ->
             minutes_of x <> 0 -> minutes_of x = minutes_of y).
  { intros x y Hxy Hpos Hne.
    assert (In (segment (minutes_of x) "m") (duration_parts y)) as H.
    { rewrite <- Hxy, duration_parts_unfold, in_segs. right; right; left.
      split; [apply Z.ltb_lt; lia | reflexivity]. }
    rewrite duration_parts_unfold, in_segs in H.
    destruct H as [[_ E]|[[_ E]|[[_ E]|[_ E]]]];
      try (exfalso; revert E; apply segment_unit_differs; discriminate).
    now apply segment_inj in E. }
  destruct (Z.eq_dec (minutes_of a) 0) as [Ea|Ea];
    destruct (Z.eq_dec (minutes_of b) 0) as [Eb|Eb].
  - congruence.
  - symmetry. now apply Hin.
  - now apply Hin.
  - now apply Hin.
Qed.

Lemma secs_agree : secs_of a = secs_of b.
Proof.
  destruct (breakdown_nonneg a Ha) as (_ & _ & _ & Hsa).
  destruct (breakdown_nonneg b Hb) as (_ & _ & _ & Hsb).
  assert (Hin : forall x y : Z,
             duration_parts x = duration_parts y -> 0 <= secs_of x ->
             secs_of x <> 0 -> secs_of x = secs_of y).
  { intros x y Hxy Hpos Hne.
    assert (In (segment (secs_of x) "s") (duration_parts y)) as H.
    { rewrite <- Hxy, duration_parts_unfold, in_segs. right; right; right.
      split; [|reflexivity].
      apply orb_true_intro. left. apply Z.ltb_lt. lia. }
    rewrite duration_parts_unfold, in_segs in H.
    destruct H as [[_ E]|[[_ E]|[[_ E]|[_ E]]]];
      try (exfalso; revert E; apply segment_unit_differs; discriminate).
    now apply segment_inj in E. }
  destruct (Z.eq_dec (secs_of a) 0) as [Ea|Ea];
    destruct (Z.eq_dec (secs_of b) 0) as [Eb|Eb].
  - congruence.
  - symmetry. now apply Hin.
  - now apply Hin.
  - now apply Hin.
Qed.

End DurationValues.

(** X15.  [format_duration] loses nothing of a non-negative duration:
    two different numbers of seconds never render the same. *)
Theorem format_duration_injective (a b : Z) :
  0 <= a -> 0 <= b -> format_duration a = format_duration b -> a = b.
Proof.
  intros Ha Hb Heq. unfold format_duration in Heq.
  apply join_space_inj in Heq; try apply duration_parts_clean.
  rewrite (recompose a), (recompose b).
  rewrite (days_agree a b Ha Hb Heq), (hours_agree a b Ha Hb Heq),
    (minutes_agree a b Ha Hb Heq), (secs_agree a b Ha Hb Heq).
  reflexivity.
Qed.

(** The statement for two equal uptimes. *)
Lemma format_duration_injective_witness : 3661 = 3600 + 61.
Proof.
  apply (format_duration_injective 3661 (3600 + 61)); [lia | lia |].
  vm_compute. reflexivity.
Defined.

(** X16.  A negative number of seconds shows no day segment: it renders
    as its remainder modulo one day does, the negative day count being
    dropped. *)
Theorem format_duration_negative (seconds : Z) :
  seconds < 0 ->
  0 <= seconds mod 86400 < 86400 /\
  format_duration seconds = format_duration (seconds mod 86400) /\
  forall n, ~ In (segment n "d") (duration_parts seconds).
Proof.
  intros Hneg.
  pose proof (Z.mod_pos_bound seconds 86400 ltac:(lia)) as Hmod.
  assert (Hdays : days_of seconds < 0).
  { unfold days_of. apply Z.div_lt_upper_bound; lia. }
  assert (Hdays' : days_of (seconds mod 86400) = 0).
  { unfold days_of. apply Z.div_small. exact Hmod. }
  assert (Hparts : duration_parts seconds
                   = duration_parts (seconds mod 86400)).
  { rewrite !duration_parts_unfold.
    unfold hours_of, minutes_of, secs_of. rewrite Hdays'.
    rewrite (Z.mod_mod seconds 86400) by lia.
    destruct (Z.ltb_spec 0 (days_of seconds)) as [H|_]; [lia|].
    reflexivity. }
  split; [exact Hmod|]. split.
  - unfold format_duration. now rewrite Hparts.
  - intros n Hin. rewrite duration_parts_unfold, in_segs in Hin.
    destruct Hin as [[Hpos _]|[[_ E]|[[_ E]|[_ E]]]];
      try (revert E; apply segment_unit_differs; discriminate).
    apply Z.ltb_lt in Hpos. lia.
Qed.

(** The statement for one second before zero. *)
Lemma format_duration_negative_witness :
  format_duration (-1) = "23h 59m 59s".
Proof.
  destruct (format_duration_negative (-1) ltac:(lia)) as (_ & Heq & _).
  rewrite Heq. vm_compute. reflexivity.
Defined.

(** ** Where the formatter raises *)

Section CollectedTypes.

Variables (cfg : Config) (w : World).
Implicit Types report : gmap string value.

Lemma collect_basic_info_inv c report report' :
  collect_basic_info c report = (Ret (), report') ->
  exists version uptime, report' = with_basic_info version uptime report.
Proof.
  unfold collect_basic_info. rewrite run_call_bind.
  destruct (get_version c) as [version|]; [|discriminate].
  rewrite run_setitem_bind, run_call_bind.
  destruct (get_info c "uptime") as [uptime|]; [|discriminate].
  rewrite run_call_bind.
  destruct (py_int uptime) as [up|]; [|discriminate].
  rewrite run_setitem_bind.
  rewrite run_bind, (run_item_int _ up) by apply lookup_insert_eq.
  intros [= <-]. eauto.
Qed.

Lemma collect_traffic_inv c report report' :
  collect_traffic c report = (Ret (), report') ->
  exists read written read_human written_human,
    report' = with_traffic read written read_human written_human report.
Proof.
  unfold collect_traffic. rewrite run_call_bind.
  destruct (get_info c "traffic/read") as [read|]; [|discriminate].
  rewrite run_call_bind.
  destruct (py_int read) as [rd|]; [|discriminate].
  rewrite run_setitem_bind, run_call_bind.
  destruct (get_info c "traffic/written") as [written|]; [|discriminate].
  rewrite run_call_bind.
  destruct (py_int written) as [wr|]; [|discriminate].
  rewrite run_setitem_bind.
  rewrite run_bind, (run_item_int _ rd)
    by (rewrite lookup_insert_ne by discriminate; apply lookup_insert_eq).
  rewrite run_call_bind.
  destruct (format_bytes (NInt rd)) as [hr|]; [|discriminate].
  rewrite run_setitem_bind.
  rewrite run_bind, (run_item_int _ wr)
    by (rewrite lookup_insert_ne by discriminate; apply lookup_insert_eq).
  rewrite run_call_bind.
  destruct (format_bytes (NInt wr)) as [hw|]; [|discriminate].
  intros [= <-]. eauto.
Qed.

(** A collection that runs to its end has stored the fields the
    formatter computes with, with their types. *)
Lemma collect_returns_typed report :
  collect cfg w (initial_report w) = (Ret (), report) ->
  has_typed_fields report.
Proof.
  unfold collect. rewrite run_call_bind.
  destruct (from_port w (TOR_CONTROL_HOST cfg) (TOR_CONTROL_PORT cfg))
    as [c|]; [|discriminate].
  rewrite authenticate_call, run_call_bind.
  destruct (authenticate c (password_used cfg)) as [[]|]; [|discriminate].
  rewrite run_bind.
  pose proof (quiet_basic_info c _
                (conj eq_refl eq_refl : no_diagnostics (initial_report w)))
    as Hq1.
  destruct (collect_basic_info c (initial_report w)) as [[[]|] r1] eqn:E1;
    [|discriminate].
  destruct (collect_basic_info_inv _ _ _ E1) as (version & up & ->).
  cbn [snd] in Hq1.
  rewrite run_bind.
  pose proof (quiet_traffic c _ Hq1) as Hq2.
  destruct (collect_traffic c _) as [[[]|] r2] eqn:E2; [|discriminate].
  destruct (collect_traffic_inv _ _ _ E2) as (rd & wr & hr & hw & ->).
  cbn [snd] in Hq2.
  rewrite run_bind.
  destruct (get_info c "fingerprint") as [fp|] eqn:Hfp.
  2: { unfold collect_identity. rewrite run_call_bind, Hfp. discriminate. }
  rewrite (collect_identity_run cfg c _ fp Hfp).
  rewrite run_bind.
  destruct (get_info c "status/circuit-established") as [est|] eqn:Hest.
  2: { unfold collect_connections. rewrite run_call_bind, Hest. discriminate. }
  rewrite (collect_connections_run c _ est Hest).
  set (r4 := with_connections c est _).
  destruct (checks_and_lookups_run cfg w c r4 fp
              (connection_count_of
                 (get_info_default c "orconn-status" EmptyString)))
    as (report' & Hrun & _ & Hflags & _ & _ & Hframe).
  { unfold r4, with_connections, with_identity.
    rewrite !lookup_insert_ne by discriminate. apply lookup_insert_eq. }
  { unfold r4, with_connections. apply lookup_insert_eq. }
  { destruct Hq2 as [Hw He]. split; unfold r4, with_connections, with_identity;
      now rewrite !lookup_insert_ne by discriminate. }
  unfold checks_and_lookups in Hrun. rewrite Hrun. intros [= <-].
  assert (Hkey : forall key : string,
             key ∈ ["uptime_seconds"; "bytes_read"; "bytes_written";
                    "fingerprint"] ->
             key ∉ ["warnings"; "errors"; "flags"; "bandwidth"; "published";
                    "accounting"]).
  { intros key Hin. rewrite !elem_of_cons in Hin.
    rewrite !not_elem_of_cons.
    destruct Hin as [->|[->|[->|[->|Hin]]]];
      [..|now apply elem_of_nil in Hin];
      repeat split; first [discriminate | apply not_elem_of_nil]. }
  unfold has_typed_fields.
  rewrite !Hframe by (apply Hkey; repeat constructor).
  unfold r4, with_connections, with_identity, with_traffic, with_basic_info.
  repeat split; eexists;
    first [ exact Hflags
          | rewrite !lookup_insert_ne by discriminate; apply lookup_insert_eq ].
Qed.

End CollectedTypes.

Section FormatterOnReports.

Variable w : World.
Variable report : gmap string value.
Hypothesis Hbase : has_base_fields w report.

(** With the Failed-to-connect error the document is rendered, whatever
    else the report holds. *)
Lemma abandoned_report_renders (errors : list string) (e : string) :
  report !! "errors" = Some (VList errors) ->
  In (connect_failure e) errors ->
  exists text, format_report_text report = Ret text.
Proof.
  intros He Hin.
  destruct (formatter_accesses w report Hbase)
    as (header & alerts & errs & stop & Hh & Ha & Her & Hs).
  assert (Hstop : stop = true).
  { assert (Hrun : stops_after_errors report
                   = Ret (contains "Failed to connect" (repr_list errors))).
    { unfold stops_after_errors, get_or, getitem. rewrite He.
      unfold truthy. rewrite bool_decide_eq_false_2
        by (intros ->; destruct Hin).
      reflexivity. }
    assert (Hc : contains "Failed to connect" (repr_list errors) = true).
    { eapply contains_repr_list;
        [reflexivity | reflexivity | exact Hin | apply connect_failure_text]. }
    rewrite Hrun, Hc in Hs. congruence. }
  unfold format_report_text, report_lines.
  rewrite Hh, Ha, Her, Hs, Hstop. cbn. eauto.
Qed.

Hypothesis Htyped : has_typed_fields report.

(** On a report with its fields typed, only the traffic section can
    raise: by the restart time or by one of the two rates. *)
Lemma typed_report_raises (e : string) :
  format_report_text report = Raise e ->
  exists uptime read written,
    report !! "uptime_seconds" = Some (VInt uptime) /\
    report !! "bytes_read" = Some (VInt read) /\
    report !! "bytes_written" = Some (VInt written) /\
    0 < uptime /\
    (sub_seconds (now w) uptime = Raise e \/
     int_truediv read uptime = Raise e \/
     int_truediv written uptime = Raise e).
Proof.
  destruct Htyped as ((up & Hup) & (rd & Hrd) & (wr & Hwr) & (fp & Hfp)
                      & (flags & Hflags)).
  destruct (formatter_accesses w report Hbase)
    as (header & alerts & errs & stop & Hh & Ha & Her & Hs).
  destruct Hbase as (Hg & _).
  assert (Hfl : exists lines, flag_lines report = Ret lines).
  { unfold flag_lines, get_or. rewrite Hflags. unfold truthy, iter_strs.
    destruct (bool_decide (flags = [])); cbn; eauto. }
  destruct Hfl as (fl & Hfl).
  assert (Hft : exists lines, footer_lines report = Ret lines).
  { unfold footer_lines, get_or. rewrite Hfp. eauto. }
  destruct Hft as (ft & Hft).
  unfold format_report_text, report_lines.
  rewrite Hh, Ha, Her, Hs, Hfl, Hft.
  rewrite (traffic_lines_run report (now w) up rd wr Hg)
    by (unfold get_or; now rewrite ?Hup, ?Hrd, ?Hwr).
  unfold mbind, outcome_bind. cbn [obind].
  destruct stop; [discriminate|].
  destruct (Z.ltb_spec 0 up) as [Hpos|_]; [|discriminate].
  intros Hraise. exists up, rd, wr.
  repeat (split; [assumption|]).
  destruct (sub_seconds (now w) up) as [restart|e1]; cbn [obind] in Hraise;
    [|left; congruence].
  destruct (int_truediv rd up) as [ar|e2]; cbn [obind] in Hraise;
    [|right; left; congruence].
  destruct (int_truediv wr up) as [aw|e3]; cbn [obind] in Hraise;
    [|right; right; congruence].
  exfalso.
  destruct (format_bytes_float ar) as (r & Hr).
  destruct (format_bytes_float aw) as (s & Hsw).
  rewrite Hr in Hraise. cbn [obind] in Hraise.
  rewrite Hsw in Hraise. discriminate.
Qed.

End FormatterOnReports.

(** X17.  On a report of the collector, [format_report_text] raises in
    one situation only: the uptime is positive and the restart time, or
    one of the two average rates, cannot be computed.  No field is ever
    missing or of a type the formatter cannot handle. *)
Theorem formatter_failure_surface
    (cfg : Config) (w : World) (report : gmap string value) (e : string) :
  get_relay_report cfg w = Ret report ->
  format_report_text report = Raise e ->
  exists uptime read written,
    report !! "uptime_seconds" = Some (VInt uptime) /\
    report !! "bytes_read" = Some (VInt read) /\
    report !! "bytes_written" = Some (VInt written) /\
    0 < uptime /\
    (sub_seconds (now w) uptime = Raise e \/
     int_truediv read uptime = Raise e \/
     int_truediv written uptime = Raise e).
Proof.
  intros Hrun Hraise.
  pose proof (report_base_fields_of cfg w report Hrun) as Hbase.
  pose proof (get_relay_report_run cfg w) as Hstep.
  destruct (collect cfg w (initial_report w)) as [[[]|e'] report'] eqn:Hcollect.
  - destruct Hstep as [Hstep _].
    assert (report' = report) as -> by congruence.
    apply (typed_report_raises w report Hbase); [|exact Hraise].
    now apply (collect_returns_typed cfg w).
  - exfalso. destruct Hstep as (errors & _ & Hstep & _).
    assert (report
            = <["errors" := VList (errors ++ [connect_failure e'])]> report')
      as Heq by congruence.
    destruct (abandoned_report_renders w report Hbase
                (errors ++ [connect_failure e']) e') as (text & Htext).
    + rewrite Heq. apply lookup_insert_eq.
    + apply in_or_app. right. now left.
    + congruence.
Qed.

(** The statement for the relay whose uptime no [timedelta] holds. *)
Lemma formatter_failure_surface_witness :
  exists report uptime,
    get_relay_report script_config (world_of (Ret endless_uptime)) = Ret report /\
    report !! "uptime_seconds" = Some (VInt uptime) /\ 0 < uptime.
Proof.
  destruct (outcome_inv
              (get_relay_report script_config (world_of (Ret endless_uptime)))
              format_report_text
              (Raise "Python int too large to convert to C int"))
    as (report & Hrun & Hfmt).
  { vm_compute. reflexivity. }
  destruct (formatter_failure_surface script_config
              (world_of (Ret endless_uptime)) report _ Hrun Hfmt)
    as (uptime & _ & _ & Hup & _ & _ & Hpos & _).
  exists report, uptime. auto.
Defined.

(** X18.  An uptime of a thousand million days or more is beyond what a
    [timedelta] holds: the traffic section raises [OverflowError] when it
    computes the restart time, whatever the generation time. *)
Theorem traffic_uptime_out_of_range
    (report : gmap string value) (generated : datetime) (uptime : Z) :
  report !! "generated" = Some (VDatetime generated) ->
  get_or report "uptime_seconds" (VInt 0) = VInt uptime ->
  86400 * 1000000000 <= uptime ->
  exists e,
    sub_seconds generated uptime = Raise e /\
    traffic_lines report = Raise e.
Proof.
  intros Hg Hu Hbig.
  assert (Hdays : 1000000000 <= uptime / 86400)
    by (apply Z.div_le_lower_bound; lia).
  assert (Hsub : exists e, sub_seconds generated uptime = Raise e).
  { unfold sub_seconds. cbv zeta.
    destruct (_ || _); [eauto|].
    destruct (Z.ltb_spec 999999999 (Z.abs (uptime / 86400))) as [_|H];
      [eauto | lia]. }
  destruct Hsub as (e & Hsub). exists e. split; [exact Hsub|].
  unfold traffic_lines, positive, getitem. rewrite Hu, Hg.
  cbn [as_int mbind outcome_bind obind].
  destruct (Z.ltb_spec 0 uptime) as [_|H]; [|lia].
  now rewrite Hsub.
Qed.

(** The statement for an uptime of exactly a thousand million days. *)
Lemma traffic_uptime_out_of_range_witness :
  traffic_lines (<["uptime_seconds" := VInt 86400000000000]> traffic_report)
  = Raise "days=1000000000; must have magnitude <= 999999999".
Proof.
  assert (Hg : (<["uptime_seconds" := VInt 86400000000000]> traffic_report)
               !! "generated" = Some (VDatetime (Datetime 2024 3 1 8 0 0 0)))
    by (vm_compute; reflexivity).
  assert (Hu : get_or (<["uptime_seconds" := VInt 86400000000000]> traffic_report)
                 "uptime_seconds" (VInt 0) = VInt 86400000000000)
    by (vm_compute; reflexivity).
  destruct (traffic_uptime_out_of_range
              (<["uptime_seconds" := VInt 86400000000000]> traffic_report)
              (Datetime 2024 3 1 8 0 0 0) 86400000000000 Hg Hu ltac:(lia))
    as (e & Hsub & Hlines).
  rewrite Hlines. vm_compute in Hsub. now injection Hsub as <-.
Defined.

(** X19.  Fields that are absent are rendered by their placeholders:
    on a report without warnings, errors and collected fields the
    document has no alerts and no errors section, Unknown for the
    nickname of the title, N/A for each missing field, the circuits as
    not established, (none) for the flags, a traffic heading without
    restart time and without rates, and a lookup address that ends after
    the slash. *)
Theorem absent_fields_placeholders
    (report : gmap string value) (generated : datetime) (host : string) :
  report !! "generated" = Some (VDatetime generated) ->
  report !! "hostname" = Some (VStr host) ->
  report !! "warnings" = Some (VList []) ->
  report !! "errors" = Some (VList []) ->
  (forall key, key ∈ data_keys -> report !! key = None) ->
  format_report_text report
  = Ret (join (str1 newline)
           [rule "=" 60;
            "  TOR RELAY REPORT: Unknown";
            "  Generated: " +:+ strftime generated "%Y-%m-%d %H:%M:%S";
            "  Host: " +:+ host;
            rule "=" 60;
            EmptyString;
            "STATUS"; rule "-" 40;
            "  Circuits:      ❌ NOT Established";
            "  Connections:   N/A";
            "  Uptime:        N/A";
            "  Tor Version:   N/A";
            EmptyString;
            "RELAY IDENTITY"; rule "-" 40;
            "  Nickname:      N/A";
            "  Address:       N/A:N/A";
            "  Fingerprint:   N/A";
            EmptyString;
            "CONSENSUS FLAGS"; rule "-" 40;
            "  (none)";
            EmptyString;
            "TRAFFIC SINCE RESTART"; rule "-" 40;
            "  Read:          N/A";
            "  Written:       N/A";
            EmptyString;
            rule "-" 60;
            "Relay search: https://metrics.torproject.org/rs.html#details/";
            EmptyString]).
Proof.
  intros Hg Hh Hw He Habsent.
  unfold format_report_text, report_lines, header_lines, alert_lines,
    error_lines, stops_after_errors, status_lines, identity_lines,
    flag_lines, traffic_lines, footer_lines, average, getitem, get_or.
  rewrite Hg, Hh, Hw, He.
  repeat match goal with
         | |- context [report !! ?key] =>
             rewrite (Habsent key) by (unfold data_keys; repeat constructor)
         end.
  reflexivity.
Qed.

(** The statement for the record as it is before the collection. *)
Lemma absent_fields_placeholders_witness :
  exists text,
    format_report_text (initial_report healthy_world) = Ret text /\
    contains "  Tor Version:   N/A" text = true.
Proof.
  eexists. split.
  - apply (absent_fields_placeholders (initial_report healthy_world)
             (now healthy_world) (gethostname healthy_world)).
    + vm_compute; reflexivity.
    + vm_compute; reflexivity.
    + vm_compute; reflexivity.
    + vm_compute; reflexivity.
    + intros key Hkey. unfold initial_report.
      rewrite !lookup_insert_ne; [apply lookup_empty|..];
        intros <-; revert Hkey; unfold data_keys;
        rewrite !elem_of_cons, elem_of_nil; intuition discriminate.
  - vm_compute. reflexivity.
Defined.

(** X20.  The document and the subject line depend on no field but the
    eighteen the formatter names: two reports that agree on these render
    alike.  So the consensus bandwidth, the publication time and the
    accounting record, which the collector stores, reach no reader. *)
Theorem formatter_reads_only
    (cfg : Config) (report1 report2 : gmap string value) :
  (forall key, key ∈ formatter_keys -> report1 !! key = report2 !! key) ->
  format_report_text report1 = format_report_text report2 /\
  subject cfg report1 = subject cfg report2.
Proof.
  intros Hagree.
  unfold format_report_text, report_lines, header_lines, alert_lines,
    error_lines, stops_after_errors, status_lines, identity_lines,
    flag_lines, traffic_lines, footer_lines, average, subject, status_emoji,
    getitem, get_or.
  repeat match goal with
         | |- context [report1 !! ?key] =>
             rewrite (Hagree key)
               by (unfold formatter_keys, data_keys; cbn [app];
                   repeat constructor)
         end.
  split; reflexivity.
Qed.

(** The statement for the healthy relay and its accounting record. *)
Lemma formatter_reads_only_witness :
  format_report_text (<["accounting" := VDict []]> traffic_report)
  = format_report_text traffic_report.
Proof.
  assert (forall key, key ∈ formatter_keys ->
            <["accounting" := VDict []]> traffic_report !! key
            = traffic_report !! key) as Hagree.
  { intros key Hkey. apply lookup_insert_ne. intros <-.
    revert Hkey. unfold formatter_keys, data_keys. cbn [app].
    rewrite !elem_of_cons, elem_of_nil. intuition discriminate. }
  destruct (formatter_reads_only script_config _ _ Hagree) as [Hdoc _].
  exact Hdoc.
Defined.
